(** * Shallow embedding of two scripts of the repository

    - [tests/python/operators.py]: the fixture table of mesh operator tests
      and the command line dispatch of [main];
    - [release/scripts/modules/rna_user_menus_ui.py]: the layout code of the
      user menus preference panel.

    Python exceptions are values of [exn]; every effectful function returns
    its outcome together with the state it leaves behind, so that what was
    written before an exception is still visible afterwards.

    Outside the model: the limits of the interpreter (recursion depth,
    memory), what the host toolkit does with a layout call, and
    [_indented_layout], which nothing in the module calls. *)

From stdpp Require Import gmap strings list.
From Stdlib Require Import ZArith Lia.

Set Warnings "-register-all".

Open Scope Z_scope.
Open Scope string_scope.
Open Scope list_scope.

(** The exceptions the two scripts can raise by themselves. *)
Inductive exn := AttributeError | IndexError | KeyError | TypeError.

Inductive result (A : Type) :=
| Ok (a : A)
| Raise (e : exn).
Arguments Ok {A} a.
Arguments Raise {A} e.

(** ** tests/python/operators.py *)
Module Operators.

(** Python values occurring in the fixture table.  A float literal is kept
    as its decimal digits: [PFloat 1 1] is 0.1.  A dict literal is the list
    of its items in source order. *)
Inductive pyval :=
| PStr (s : string)
| PInt (z : Z)
| PBool (b : bool)
| PFloat (digits : Z) (scale : nat)
| PTuple (items : list pyval)
| PList (items : list pyval)
| PSet (elems : gset Z)
| PDict (items : list (string * pyval)).

(** [{i for i in range(n)}] *)
Definition range_set (n : nat) : gset Z := list_to_set (Z.of_nat <$> seq 0 n).

(** [{a, b, ...}] *)
Definition set_of (l : list Z) : gset Z := list_to_set l.

(** Central vertical loop of Suzanne *)
Definition MONKEY_LOOP_VERT : gset Z :=
  set_of [68; 69; 71; 73; 74; 75; 76; 77; 90; 129; 136; 175; 188; 189; 198; 207;
          216; 223; 230; 301; 302; 303; 304; 305; 306; 307; 308].
Definition MONKEY_LOOP_EDGE : gset Z :=
  set_of [131; 278; 299; 305; 307; 334; 337; 359; 384; 396; 399; 412; 415; 560;
          567; 572; 577; 615; 622; 627; 632; 643; 648; 655; 660; 707].

Definition zero3 : pyval := PTuple [PInt 0; PInt 0; PInt 0].
Definition inset_verts : gset Z :=
  set_of [5; 16; 17; 19; 20; 22; 23; 34; 47; 49; 50; 52; 59; 61; 62; 65; 83; 91; 95].

(** The list literal [tests] of [main], entry by entry. *)
Definition tests : list pyval := [
  (* 0: bisect *)
  PList [PStr "FACE"; PSet (set_of [0; 1; 2; 3; 4; 5]); PStr "CubeBisect"; PStr "testCubeBisect";
         PStr "expectedCubeBisect"; PStr "bisect";
         PDict [("plane_co", zero3); ("plane_no", PTuple [PInt 0; PInt 1; PInt 1]);
                ("clear_inner", PBool true); ("use_fill", PBool true)]];
  (* blend from shape *)
  PList [PStr "FACE"; PSet (set_of [0; 1; 2; 3; 4; 5]); PStr "CubeBlendFromShape";
         PStr "testCubeBlendFromShape"; PStr "expectedCubeBlendFromShape"; PStr "blend_from_shape";
         PDict [("shape", PStr "Key 1")]];
  (* bridge edge loops *)
  PList [PStr "FACE"; PSet (set_of [0; 1]); PStr "CubeBridgeEdgeLoop"; PStr "testCubeBrigeEdgeLoop";
         PStr "expectedCubeBridgeEdgeLoop"; PStr "bridge_edge_loops"; PDict []];
  (* decimate *)
  PList [PStr "FACE"; PSet (range_set 500); PStr "MonkeyDecimate"; PStr "testMonkeyDecimate";
         PStr "expectedMonkeyDecimate"; PStr "decimate"; PDict [("ratio", PFloat 1 1)]];
  (* 4: delete *)
  PList [PStr "VERT"; PSet (set_of [3]); PStr "CubeDeleteVertices"; PStr "testCubeDeleteVertices";
         PStr "expectedCubeDeleteVertices"; PStr "delete"; PDict []];
  PList [PStr "FACE"; PSet (set_of [0]); PStr "CubeDeleteFaces"; PStr "testCubeDeleteFaces";
         PStr "expectedCubeDeleteFaces"; PStr "delete"; PDict []];
  PList [PStr "EDGE"; PSet (set_of [0; 1; 2; 3]); PStr "CubeDeleteEdges"; PStr "testCubeDeleteEdges";
         PStr "expectedCubeDeleteEdges"; PStr "delete"; PDict []];
  (* delete edge loop *)
  PList [PStr "VERT"; PSet MONKEY_LOOP_VERT; PStr "MonkeyDeleteEdgeLoopVertices";
         PStr "testMokneyDeleteEdgeLoopVertices"; PStr "expectedMonkeyDeleteEdgeLoopVertices";
         PStr "delete_edgeloop"; PDict []];
  PList [PStr "EDGE"; PSet MONKEY_LOOP_EDGE; PStr "MonkeyDeleteEdgeLoopEdges";
         PStr "testMokneyDeleteEdgeLoopEdges"; PStr "expectedMonkeyDeleteEdgeLoopEdges";
         PStr "delete_edgeloop"; PDict []];
  (* 9: delete loose *)
  PList [PStr "VERT"; PSet (range_set 12); PStr "CubeDeleteLooseVertices";
         PStr "testCubeDeleteLooseVertices"; PStr "expectedCubeDeleteLooseVertices"; PStr "delete_loose";
         PDict [("use_verts", PBool true); ("use_edges", PBool false); ("use_faces", PBool false)]];
  PList [PStr "EDGE"; PSet (range_set 14); PStr "CubeDeleteLooseEdges";
         PStr "testCubeDeleteLooseEdges"; PStr "expectedCubeDeleteLooseEdges"; PStr "delete_loose";
         PDict [("use_verts", PBool false); ("use_edges", PBool true); ("use_faces", PBool false)]];
  PList [PStr "FACE"; PSet (range_set 7); PStr "CubeDeleteLooseFaces";
         PStr "testCubeDeleteLooseFaces"; PStr "expectedCubeDeleteLooseFaces"; PStr "delete_loose";
         PDict [("use_verts", PBool false); ("use_edges", PBool false); ("use_faces", PBool true)]];
  (* dissolve degenerate *)
  PList [PStr "VERT"; PSet (range_set 8); PStr "CubeDissolveDegenerate";
         PStr "testCubeDissolveDegenerate"; PStr "expectedCubeDissolveDegenerate";
         PStr "dissolve_degenerate"; PDict []];
  (* 13: dissolve edges *)
  PList [PStr "EDGE"; PSet (set_of [0; 5; 6; 9]); PStr "CylinderDissolveEdges";
         PStr "testCylinderDissolveEdges"; PStr "expectedCylinderDissolveEdges";
         PStr "dissolve_edges"; PDict []];
  (* dissolve faces *)
  PList [PStr "VERT"; PSet (set_of [5; 34; 47; 49; 83; 91; 95]); PStr "CubeDissolveFaces";
         PStr "testCubeDissolveFaces"; PStr "expectedCubeDissolveFaces"; PStr "dissolve_faces";
         PDict []];
  (* 15: dissolve verts *)
  PList [PStr "VERT"; PSet (set_of [16; 20; 22; 23; 25]); PStr "CubeDissolveVerts";
         PStr "testCubeDissolveVerts"; PStr "expectedCubeDissolveVerts"; PStr "dissolve_verts";
         PDict []];
  (* duplicate *)
  PList [PStr "VERT"; PSet (range_set 33 ∖ set_of [23]); PStr "ConeDuplicateVertices";
         PStr "testConeDuplicateVertices"; PStr "expectedConeDuplicateVertices"; PStr "duplicate";
         PDict []];
  PList [PStr "VERT"; PSet (set_of [23]); PStr "ConeDuplicateOneVertex";
         PStr "testConeDuplicateOneVertex"; PStr "expectedConeDuplicateOneVertex"; PStr "duplicate";
         PDict []];
  PList [PStr "FACE"; PSet (set_of [6; 9]); PStr "ConeDuplicateFaces"; PStr "testConeDuplicateFaces";
         PStr "expectedConeDuplicateFaces"; PStr "duplicate"; PDict []];
  PList [PStr "EDGE"; PSet (range_set 64); PStr "ConeDuplicateEdges"; PStr "testConeDuplicateEdges";
         PStr "expectedConeDuplicateEdges"; PStr "duplicate"; PDict []];
  (* 20: edge collapse *)
  PList [PStr "EDGE"; PSet (set_of [1; 9; 4]); PStr "CylinderEdgeCollapse";
         PStr "testCylinderEdgeCollapse"; PStr "expectedCylinderEdgeCollapse"; PStr "edge_collapse";
         PDict []];
  (* edge face add *)
  PList [PStr "VERT"; PSet (set_of [1; 3; 4; 5; 7]); PStr "CubeEdgeFaceAddFace";
         PStr "testCubeEdgeFaceAddFace"; PStr "expectedCubeEdgeFaceAddFace"; PStr "edge_face_add";
         PDict []];
  PList [PStr "VERT"; PSet (set_of [4; 5]); PStr "CubeEdgeFaceAddEdge";
         PStr "testCubeEdgeFaceAddEdge"; PStr "expectedCubeEdgeFaceAddEdge"; PStr "edge_face_add";
         PDict []];
  (* edge rotate *)
  PList [PStr "EDGE"; PSet (set_of [1]); PStr "CubeEdgeRotate"; PStr "testCubeEdgeRotate";
         PStr "expectedCubeEdgeRotate"; PStr "edge_rotate"; PDict []];
  (* edge split *)
  PList [PStr "EDGE"; PSet (set_of [2; 5; 8; 11; 14; 17; 20; 23]); PStr "CubeEdgeSplit";
         PStr "testCubeEdgeSplit"; PStr "expectedCubeEdgeSplit"; PStr "edge_split"; PDict []];
  (* 25: face make planar *)
  PList [PStr "FACE"; PSet (range_set 500); PStr "MonkeyFaceMakePlanar";
         PStr "testMonkeyFaceMakePlanar"; PStr "expectedMonkeyFaceMakePlanar";
         PStr "face_make_planar"; PDict []];
  (* face split by edges *)
  PList [PStr "VERT"; PSet (range_set 6); PStr "PlaneFaceSplitByEdges";
         PStr "testPlaneFaceSplitByEdges"; PStr "expectedPlaneFaceSplitByEdges";
         PStr "face_split_by_edges"; PDict []];
  (* fill *)
  PList [PStr "EDGE"; PSet (set_of [20; 21; 22; 23; 24; 45; 46; 47; 48; 49]); PStr "IcosphereFill";
         PStr "testIcosphereFill"; PStr "expectedIcosphereFill"; PStr "fill"; PDict []];
  PList [PStr "EDGE"; PSet (set_of [20; 21; 22; 23; 24; 45; 46; 47; 48; 49]);
         PStr "IcosphereFillUseBeautyFalse"; PStr "testIcosphereFillUseBeautyFalse";
         PStr "expectedIcosphereFillUseBeautyFalse"; PStr "fill";
         PDict [("use_beauty", PBool false)]];
  (* fill grid *)
  PList [PStr "EDGE"; PSet (set_of [1; 2; 3; 4; 5; 7; 9; 10; 11; 12; 13; 15]); PStr "PlaneFillGrid";
         PStr "testPlaneFillGrid"; PStr "expectedPlaneFillGrid"; PStr "fill_grid"; PDict []];
  PList [PStr "EDGE"; PSet (set_of [1; 2; 3; 4; 5; 7; 9; 10; 11; 12; 13; 15]);
         PStr "PlaneFillGridSimpleBlending"; PStr "testPlaneFillGridSimpleBlending";
         PStr "expectedPlaneFillGridSimpleBlending"; PStr "fill_grid";
         PDict [("use_interp_simple", PBool true)]];
  (* 31: fill holes *)
  PList [PStr "VERT"; PSet (range_set 481); PStr "SphereFillHoles"; PStr "testSphereFillHoles";
         PStr "expectedSphereFillHoles"; PStr "fill_holes"; PDict [("sides", PInt 9)]];
  (* inset faces *)
  PList [PStr "VERT"; PSet inset_verts; PStr "CubeInset"; PStr "testCubeInset";
         PStr "expectedCubeInset"; PStr "inset"; PDict [("thickness", PFloat 2 1)]];
  PList [PStr "VERT"; PSet inset_verts; PStr "CubeInsetEvenOffsetFalse";
         PStr "testCubeInsetEvenOffsetFalse"; PStr "expectedCubeInsetEvenOffsetFalse"; PStr "inset";
         PDict [("thickness", PFloat 2 1); ("use_even_offset", PBool false)]];
  PList [PStr "VERT"; PSet inset_verts; PStr "CubeInsetDepth"; PStr "testCubeInsetDepth";
         PStr "expectedCubeInsetDepth"; PStr "inset";
         PDict [("thickness", PFloat 2 1); ("depth", PFloat 2 1)]];
  PList [PStr "FACE"; PSet (set_of [35; 36; 37; 45; 46; 47; 55; 56; 57]);
         PStr "GridInsetRelativeOffset"; PStr "testGridInsetRelativeOffset";
         PStr "expectedGridInsetRelativeOffset"; PStr "inset";
         PDict [("thickness", PFloat 4 1); ("use_relative_offset", PBool true)]]
].

(** The object built by [OperatorTest(tests)] is a Python object: a
    dictionary from attribute names to values.  Its class lives in
    [modules.mesh_test], outside this script, so the attributes the
    constructor sets are whatever [new_OperatorTest] returns. *)
Abbreviation OperatorTest := (gmap string pyval).

(** A call into the [OperatorTest] object, with the object as it is when
    the call is made.  The methods belong to the external class: the script
    only makes the call, and what the call does is not part of it. *)
Inductive call :=
| run_all_tests (self : OperatorTest)
| run_test (self : OperatorTest) (name : string).

(** What one run of the dispatch loop leaves behind: the exception that
    escaped (if any), the object after the script's own attribute writes,
    and the calls made, in order. *)
Record outcome := Outcome {
  raised : option exn;
  operators_test : OperatorTest;
  calls : list call
}.

(** [enumerate(command)] *)
Fixpoint enumerate_from {A} (i : nat) (l : list A) : list (nat * A) :=
  match l with
  | [] => []
  | x :: l' => (i, x) :: enumerate_from (S i) l'
  end.
Definition enumerate {A} (l : list A) : list (nat * A) := enumerate_from 0 l.

(** The [for i, cmd in enumerate(command)] loop of [main]; [todo] is what
    is left of the enumeration. *)
Fixpoint dispatch (command : list string) (todo : list (nat * string))
    (ot : OperatorTest) : outcome :=
  match todo with
  | [] => Outcome None ot []
  | (i, cmd) :: todo' =>
      if String.eqb cmd "--run-all-tests" then
        (* operators_test.run_all_tests(); break *)
        Outcome None ot [run_all_tests ot]
      else if String.eqb cmd "--run-test" then
        (* operators_test.apply_modifiers = False *)
        let ot' := <["apply_modifiers" := PBool false]> ot in
        (* name = command[i + 1] *)
        match command !! (i + 1)%nat with
        | None => Outcome (Some IndexError) ot' []
        | Some name =>
            (* operators_test.run_test(name); break *)
            Outcome None ot' [run_test ot' name]
        end
      else dispatch command todo' ot
  end.

Section Main.
(** The constructor of the external class. *)
Variable new_OperatorTest : list pyval → OperatorTest.

Definition main (argv : list string) : outcome :=
  let operators_test := new_OperatorTest tests in
  let command := argv in
  dispatch command (enumerate command) operators_test.
End Main.

(** An argument that is neither of the two flags. *)
Definition is_flag (cmd : string) : bool :=
  String.eqb cmd "--run-all-tests" || String.eqb cmd "--run-test".
Definition no_flag (l : list string) : Prop := Forall (λ cmd, is_flag cmd = false) l.

(** What the loop does at the first flag [f], followed by the arguments
    [post]: the summary the dispatch lemmas are stated with. *)
Definition at_flag (ot : OperatorTest) (f : string) (post : list string) : outcome :=
  if String.eqb f "--run-all-tests" then Outcome None ot [run_all_tests ot]
  else
    let ot' := <["apply_modifiers" := PBool false]> ot in
    match post with
    | [] => Outcome (Some IndexError) ot' []
    | name :: _ => Outcome None ot' [run_test ot' name]
    end.

(** The shape of a fixture entry as the table has it: a list of seven
    fields. *)
Definition is_mode (v : pyval) : bool :=
  match v with
  | PStr s => String.eqb s "VERT" || String.eqb s "EDGE" || String.eqb s "FACE"
  | _ => false
  end.
Definition is_str (v : pyval) : bool := match v with PStr _ => true | _ => false end.
Definition is_set (v : pyval) : bool := match v with PSet _ => true | _ => false end.
Definition is_dict (v : pyval) : bool := match v with PDict _ => true | _ => false end.

(** The fields of an entry, whether it is written as a list or a tuple. *)
Definition fields (v : pyval) : option (list pyval) :=
  match v with
  | PList l | PTuple l => Some l
  | _ => None
  end.

(** A list literal [[...]], as opposed to a tuple. *)
Definition is_list_literal (v : pyval) : bool :=
  match v with
  | PList _ => true
  | _ => false
  end.

(** Seven fields: mode, indices, test name, test object name, expected
    object name, operator name, parameters. *)
Definition entry_shape (v : pyval) : bool :=
  match fields v with
  | Some [mode; sel; name; test_obj; expected_obj; op; params] =>
      is_mode mode && is_set sel && is_str name && is_str test_obj
      && is_str expected_obj && is_str op && is_dict params
  | _ => false
  end.

(** The shape the specification describes: six fields (mode, indices, test
    name, expected-result name, operator name, parameters). *)
Definition spec_entry_shape (v : pyval) : bool :=
  match fields v with
  | Some [mode; sel; name; expected; op; params] =>
      is_mode mode && is_set sel && is_str name && is_str expected
      && is_str op && is_dict params
  | _ => false
  end.

(** A constructor for the examples: no attribute but the table. *)
Definition bare_OperatorTest (ts : list pyval) : OperatorTest :=
  {["tests" := PList ts]}.

End Operators.

(** ** release/scripts/modules/rna_user_menus_ui.py *)
Module UserMenus.

(** *** Host data

    Objects of the host are told apart by an identity: [==] on two host
    objects compares identities, and a field written through one reference
    is seen through every other. *)

(** A menu item.  [it_submenu] is what [get_submenu()] gives, reduced to
    its [items_list]; [None] when the host has no submenu for the item.
    The flag [is_selected] is the one field this module writes: it is kept
    in the store [is_selected] of the host state, under the item's identity. *)
Inductive menu_item := MenuItem {
  it_id : nat;
  it_name : string;
  it_icon : string;
  it_type : string;
  it_submenu : option (list menu_item)
}.

(** A menu group ([um.active_group], the elements of [um.menus]). *)
Record menu_group := MenuGroup {
  g_id : nat;
  g_name : string;
  g_idname : string;
  g_type : string
}.

(** What [um.get_current_menu()] returns when it is not [None]. *)
Record user_menu := UserMenu { menu_items : list menu_item }.

(** [context.preferences.user_menus] *)
Record user_menus := UserMenusData {
  active_group : option menu_group;
  active_item : option menu_item;
  menus : list menu_group;
  expanded : bool;
  space_selected : string;
  context_selected : string
}.

(** [kmi.properties] of a [wm.call_user_menu] binding. *)
Record op_properties := OpProperties { p_name : string; p_idname : string }.

Record keymap_item := KeymapItem {
  kmi_id : Z;
  kmi_idname : string;
  kmi_properties : op_properties;
  kmi_active : bool;
  kmi_map_type : string;
  kmi_type : string;
  kmi_value : string;
  kmi_repeat : bool;
  kmi_any : bool;
  kmi_shift : bool;
  kmi_ctrl : bool;
  kmi_alt : bool;
  kmi_oskey : bool;
  kmi_key_modifier : string
}.

Record keymap := Keymap { km_name : string; keymap_items : list keymap_item }.

(** The part of [context] the module touches. *)
Record host := Host {
  user_menus_of : user_menus;        (* context.preferences.user_menus *)
  keymaps : list keymap;             (* context.window_manager.keyconfigs.user.keymaps *)
  is_selected : gmap nat bool        (* item.is_selected, by item identity *)
}.

(** Host methods whose code is not part of the module. *)
Class HostAPI := {
  (* um.has_item() *)
  has_item : user_menus → bool;
  (* um.get_current_menu() *)
  get_current_menu : user_menus → option user_menu;
  (* the item the host allocates for km.keymap_items.new, before the
     arguments of the call are stored in it *)
  blank_keymap_item : keymap → keymap_item
}.

(** *** Layout calls *)

(** A layout object of the host toolkit. *)
Definition layout := nat.

(** A keyword argument of a layout call; [AFloat 4 1] is 0.4. *)
Inductive arg :=
| AStr (s : string)
| ABool (b : bool)
| AInt (z : Z)
| AFloat (digits : Z) (scale : nat).

(** The host object a widget is bound to. *)
Inductive rna :=
| ref_user_menus
| ref_group (id : nat)
| ref_item (id : nat)
| ref_operator (id : nat)   (* item.get_operator() *)
| ref_menu (id : nat)       (* item.get_menu() *)
| ref_property (id : nat)   (* item.get_property() *)
| ref_kmi (id : Z).

(** One call into the layout API.  [sub_layout] covers [split], [column],
    [row] and [box], which return a new layout [child]. *)
Inductive ui_call :=
| sub_layout (kind : string) (parent child : layout) (kw : list (string * arg))
| label (l : layout) (kw : list (string * arg))
| prop (l : layout) (data : rna) (property : string) (kw : list (string * arg))
| operator (l : layout) (idname : string) (kw : list (string * arg))
    (assigned : list (string * arg))
| menu (l : layout) (idname : string) (kw : list (string * arg))
| separator (l : layout)
| template_user_menu_item_properties (l : layout) (data : rna)
| set_layout_attr (l : layout) (attr : string) (v : arg).

(** *** State and monad *)

Record state := State {
  ctx : host;
  fresh : layout;           (* the next layout object the toolkit hands out *)
  drawn : list ui_call      (* the calls made so far, oldest first *)
}.

Definition M (A : Type) : Type := state → result A * state.

Definition ret {A} (a : A) : M A := λ s, (Ok a, s).
Definition bind {A B} (m : M A) (f : A → M B) : M B :=
  λ s, match m s with
       | (Ok a, s') => f a s'
       | (Raise e, s') => (Raise e, s')
       end.
Definition raise {A} (e : exn) : M A := λ s, (Raise e, s).
Definition gets {A} (f : host → A) : M A := λ s, (Ok (f (ctx s)), s).
Definition modify (f : host → host) : M unit :=
  λ s, (Ok tt, State (f (ctx s)) (fresh s) (drawn s)).
Definition emit (c : ui_call) : M unit :=
  λ s, (Ok tt, State (ctx s) (fresh s) (drawn s ++ [c])).
Definition new_layout (kind : string) (parent : layout) (kw : list (string * arg)) : M layout :=
  λ s, (Ok (fresh s),
        State (ctx s) (S (fresh s)) (drawn s ++ [sub_layout kind parent (fresh s) kw])).

Declare Scope py_scope.
Delimit Scope py_scope with py.
Notation "x <- m ;; k" := (bind m (λ x, k))
  (at level 100, m at next level, right associativity) : py_scope.
Notation "m ;;; k" := (bind m (λ _, k))
  (at level 100, right associativity) : py_scope.
Open Scope py_scope.

(** [for x in l: body x] *)
Fixpoint for_each {A} (body : A → M unit) (l : list A) : M unit :=
  match l with
  | [] => ret tt
  | x :: l' => body x ;;; for_each body l'
  end.

(** [x.attr] on a reference that may be [None]. *)
Definition attr_of {A B} (o : option A) (f : A → B) : M B :=
  match o with
  | Some a => ret (f a)
  | None => raise AttributeError
  end.

(** [l[i]] on a Python list. *)
Definition index_of {A} (l : list A) (i : nat) : M A :=
  match l !! i with
  | Some a => ret a
  | None => raise IndexError
  end.

(** [s in {...}] *)
Definition str_in (s : string) (l : list string) : bool := existsb (String.eqb s) l.

(** Field writes on the host. *)
Definition set_is_selected (id : nat) (b : bool) (h : host) : host :=
  Host (user_menus_of h) (keymaps h) (<[id := b]> (is_selected h)).
Definition set_active_group (g : menu_group) (h : host) : host :=
  let um := user_menus_of h in
  Host (UserMenusData (Some g) (active_item um) (menus um) (expanded um)
          (space_selected um) (context_selected um))
       (keymaps h) (is_selected h).
Definition set_keymaps (kms : list keymap) (h : host) : host :=
  Host (user_menus_of h) kms (is_selected h).

(** *** The functions of the module *)

Section Draw.
Context `{HostAPI}.

(** Modelled from the spec: [km.keymap_items.new] is host code, absent from
    the module.  A keymap item is the host's binding between an input event
    and an operator invocation, so the new item carries the operator
    [idname] and the event fields it was asked for; every other field is
    the host's choice ([blank_keymap_item]). *)
Definition keymap_items_new (km : keymap) (idname type value : string)
    (shift ctrl alt : bool) : keymap_item :=
  let b := blank_keymap_item km in
  KeymapItem (kmi_id b) idname (kmi_properties b) (kmi_active b) (kmi_map_type b)
    type value (kmi_repeat b) (kmi_any b) shift ctrl alt (kmi_oskey b)
    (kmi_key_modifier b).

(** [kmi.properties.idname = v] *)
Definition set_properties_idname (v : string) (k : keymap_item) : keymap_item :=
  KeymapItem (kmi_id k) (kmi_idname k) (OpProperties (p_name (kmi_properties k)) v)
    (kmi_active k) (kmi_map_type k) (kmi_type k) (kmi_value k) (kmi_repeat k)
    (kmi_any k) (kmi_shift k) (kmi_ctrl k) (kmi_alt k) (kmi_oskey k)
    (kmi_key_modifier k).

(** [kmi.active = v] *)
Definition set_active (v : bool) (k : keymap_item) : keymap_item :=
  KeymapItem (kmi_id k) (kmi_idname k) (kmi_properties k) v (kmi_map_type k)
    (kmi_type k) (kmi_value k) (kmi_repeat k) (kmi_any k) (kmi_shift k)
    (kmi_ctrl k) (kmi_alt k) (kmi_oskey k) (kmi_key_modifier k).

(** The inner loop of [get_keymap]: [for kmi in km.keymap_items]. *)
Fixpoint find_in_keymap_items (idname : string) (items : list keymap_item)
    : option keymap_item :=
  match items with
  | [] => None
  | kmi :: items' =>
      if String.eqb (kmi_idname kmi) "wm.call_user_menu"
         && String.eqb (p_name (kmi_properties kmi)) idname
      then Some kmi
      else find_in_keymap_items idname items'
  end.

(** The outer loop: [for km in ...keymaps]. *)
Fixpoint find_in_keymaps (idname : string) (kms : list keymap) : option keymap_item :=
  match kms with
  | [] => None
  | km :: kms' =>
      match find_in_keymap_items idname (keymap_items km) with
      | Some kmi => Some kmi
      | None => find_in_keymaps idname kms'
      end
  end.

(** [keymaps[name]]: position and value of the first keymap of that name. *)
Fixpoint keymap_named (name : string) (i : nat) (kms : list keymap)
    : option (nat * keymap) :=
  match kms with
  | [] => None
  | km :: kms' =>
      if String.eqb (km_name km) name then Some (i, km)
      else keymap_named name (S i) kms'
  end.

(** [not idname] for an argument that is a string or [None]. *)
Definition falsy (idname : option string) : bool :=
  match idname with
  | None => true
  | Some s => String.eqb s ""
  end.

Definition get_keymap (idname : option string) (ensure : bool) : M (option keymap_item) :=
  um <- gets user_menus_of ;;
  idname <- (if falsy idname then attr_of (active_group um) g_idname
             else ret (default "" idname)) ;;
  kms <- gets keymaps ;;
  match find_in_keymaps idname kms with
  | Some kmi => ret (Some kmi)
  | None =>
      if ensure then
        match keymap_named "Window" 0 kms with
        | None => raise KeyError
        | Some (i, km) =>
            let kmi := keymap_items_new km "wm.call_user_menu" "NONE" "ANY" false false false in
            let kmi := set_properties_idname idname kmi in
            let kmi := set_active true kmi in
            (* the new item sits at the end of the keymap it was created in *)
            modify (set_keymaps (<[i := Keymap (km_name km) (keymap_items km ++ [kmi])]> kms)) ;;;
            ret (Some kmi)
        end
      else ret None
  end.

(** [item == um.active_item] *)
Definition is_active (id : nat) (um : user_menus) : bool :=
  match active_item um with
  | Some a => Nat.eqb id (it_id a)
  | None => false
  end.

(** [draw_item], over the [draw_button] it calls. *)
Definition draw_item_with (draw_button : layout → menu_item → Z → M unit)
    (box : layout) (items : list menu_item) : M unit :=
  for_each (λ umi, draw_button box umi (-1)) items.

Fixpoint draw_button (box : layout) (item : menu_item) (index : Z) {struct item} : M unit :=
  match item with
  | MenuItem id iname icon type submenu =>
      um <- gets user_menus_of ;;
      let name := if String.eqb iname "" then " " else iname in
      modify (set_is_selected id (is_active id um)) ;;;
      col <- new_layout "column" box [("align", ABool true)] ;;
      row <- new_layout "row" col [("align", ABool true)] ;;
      let name := if String.eqb type "SEPARATOR" then "___________" else name in
      emit (prop row (ref_item id) "is_selected"
              [("icon", AStr icon); ("text", AStr name); ("toggle", AInt 1)]) ;;;
      if String.eqb type "SUBMENU" then
        let sm := submenu in
        group_type <- attr_of (active_group um) g_type ;;
        (if String.eqb group_type "PIE" && Z.leb 0 index then
           emit (operator row "preferences.pie_menuitem_add"
                   [("text", AStr ""); ("icon", AStr "ADD")] [("index", AInt index)]) ;;;
           emit (operator row "preferences.menuitem_remove"
                   [("text", AStr ""); ("icon", AStr "REMOVE")] []) ;;;
           emit (operator row "preferences.menuitem_up"
                   [("text", AStr ""); ("icon", AStr "TRIA_UP")] []) ;;;
           emit (operator row "preferences.menuitem_down"
                   [("text", AStr ""); ("icon", AStr "TRIA_DOWN")] [])
         else ret tt) ;;;
        sub_box <- new_layout "box" col [] ;;
        sub_box <- new_layout "column" sub_box [("align", ABool true)] ;;
        match sm with
        | None => raise AttributeError
        | Some items_list => draw_item_with draw_button sub_box items_list
        end
      else ret tt
  end.

Definition draw_item (box : layout) (items : list menu_item) : M unit :=
  draw_item_with draw_button box items.

Definition draw_item_box (row : layout) : M unit :=
  um <- gets user_menus_of ;;
  box_line <- new_layout "box" row [] ;;
  box_col <- new_layout "column" box_line [("align", ABool true)] ;;
  let has_item := has_item um in
  (if negb has_item then emit (label box_col [("text", AStr "none")])
   else
     items <- attr_of (get_current_menu um) menu_items ;;
     draw_item box_col items) ;;;
  row <- new_layout "split" row [("factor", AFloat 9 1); ("align", ABool true)] ;;
  col <- new_layout "column" row [("align", ABool true)] ;;
  emit (operator col "preferences.menuitem_add"
          [("text", AStr ""); ("icon", AStr "ADD")] [("index", AInt (-1))]) ;;;
  emit (operator col "preferences.menuitem_remove"
          [("text", AStr ""); ("icon", AStr "REMOVE")] []) ;;;
  emit (operator col "preferences.menuitem_up"
          [("text", AStr ""); ("icon", AStr "TRIA_UP")] []) ;;;
  emit (operator col "preferences.menuitem_down"
          [("text", AStr ""); ("icon", AStr "TRIA_DOWN")] []) ;;;
  emit (separator row).

Definition draw_pie_item (col : layout) (items : menu_item) (label_ : string) (index : Z)
    : M unit :=
  row <- new_layout "row" col [] ;;
  emit (label row [("text", AStr label_)]) ;;;
  draw_button row items index.

(** One line of [draw_pie]:
    [draw_pie_item(context, col, cm.menu_items[i], label, i)]. *)
Definition draw_pie_line (col : layout) (cm : user_menu) (i : nat) (label_ : string)
    : M unit :=
  item <- index_of (menu_items cm) i ;;
  draw_pie_item col item label_ (Z.of_nat i).

Definition draw_pie (row : layout) : M unit :=
  um <- gets user_menus_of ;;
  match get_current_menu um with
  | None => ret tt
  | Some cm =>
      col <- new_layout "column" row [] ;;
      draw_pie_line col cm 0 "Left : " ;;;
      draw_pie_line col cm 1 "Right : " ;;;
      draw_pie_line col cm 2 "Down : " ;;;
      draw_pie_line col cm 3 "Up : " ;;;
      draw_pie_line col cm 4 "Upper left : " ;;;
      draw_pie_line col cm 5 "Upper right : " ;;;
      draw_pie_line col cm 6 "Lower left : " ;;;
      draw_pie_line col cm 7 "Lower right : " ;;;
      emit (separator row)
  end.

Definition draw_item_editor (row : layout) : M unit :=
  um <- gets user_menus_of ;;
  col <- new_layout "column" row [] ;;
  let has_item := has_item um in
  let current := active_item um in
  if negb has_item then
    emit (label col [("text", AStr "No item in this list.")]) ;;;
    emit (label col [("text", AStr "Add one or choose another list to get started")])
  else
    match current with
    | Some current =>
        let id := it_id current in
        emit (prop col (ref_item id) "type" []) ;;;
        (if negb (String.eqb (it_type current) "SEPARATOR") then
           rowsub <- new_layout "row" col [("align", ABool true)] ;;
           emit (prop rowsub (ref_item id) "icon"
                   [("icon", AStr (it_icon current)); ("text", AStr "")]) ;;;
           emit (prop col (ref_item id) "name" [])
         else ret tt) ;;;
        (if String.eqb (it_type current) "OPERATOR" then
           let umi_op := ref_operator id in
           emit (prop col umi_op "operator" []) ;;;
           box <- new_layout "box" col [] ;;
           emit (template_user_menu_item_properties box umi_op)
         else ret tt) ;;;
        (if String.eqb (it_type current) "MENU" then
           let umi_pm := ref_menu id in
           emit (prop col umi_pm "id_name" [("text", AStr "ID name")])
         else ret tt) ;;;
        (if String.eqb (it_type current) "PROPERTY" then
           let umi_prop := ref_property id in
           emit (prop col umi_prop "id_name" []) ;;;
           emit (prop col umi_prop "context" [])
         else ret tt)
    | None => emit (label col [("text", AStr "No item selected.")])
    end.

(** [map_type == s] for a [map_type] that is a string or [None]. *)
Definition map_type_is (map_type : option string) (s : string) : bool :=
  match map_type with
  | Some t => String.eqb t s
  | None => false
  end.

(** [map_type in {...}] *)
Definition map_type_in (map_type : option string) (l : list string) : bool :=
  match map_type with
  | Some t => str_in t l
  | None => false
  end.

Definition draw_user_menu_preference_expanded (layout_ : layout)
    (kmi : option keymap_item) (map_type : option string) : M unit :=
  box <- new_layout "box" layout_ [] ;;
  sub <- new_layout "row" box [] ;;
  match kmi with
  | Some kmi =>
      let k := ref_kmi (kmi_id kmi) in
      if negb (map_type_in map_type ["TEXTINPUT"; "TIMER"]) then
        sub <- new_layout "column" box [] ;;
        subrow <- new_layout "row" sub [("align", ABool true)] ;;
        (if map_type_is map_type "KEYBOARD" then
           emit (prop subrow k "type" [("text", AStr ""); ("event", ABool true)]) ;;;
           emit (prop subrow k "value" [("text", AStr "")]) ;;;
           subrow_repeat <- new_layout "row" subrow [("align", ABool true)] ;;
           emit (set_layout_attr subrow_repeat "active"
                   (ABool (str_in (kmi_value kmi) ["ANY"; "PRESS"]))) ;;;
           emit (prop subrow_repeat k "repeat" [("text", AStr "Repeat")])
         else if map_type_in map_type ["MOUSE"; "NDOF"] then
           emit (prop subrow k "type" [("text", AStr "")]) ;;;
           emit (prop subrow k "value" [("text", AStr "")])
         else ret tt) ;;;
        subrow <- new_layout "row" sub [] ;;
        emit (set_layout_attr subrow "scale_x" (AFloat 75 2)) ;;;
        emit (prop subrow k "any" [("toggle", ABool true)]) ;;;
        emit (prop subrow k "shift" [("toggle", ABool true)]) ;;;
        emit (prop subrow k "ctrl" [("toggle", ABool true)]) ;;;
        emit (prop subrow k "alt" [("toggle", ABool true)]) ;;;
        emit (prop subrow k "oskey" [("text", AStr "Cmd"); ("toggle", ABool true)]) ;;;
        emit (prop subrow k "key_modifier" [("text", AStr ""); ("event", ABool true)])
      else ret tt
  | None => emit (label sub [("text", AStr "No key set")])
  end.

(** [umg != qf], where [umg] may be [None]. *)
Definition group_differs (umg : option menu_group) (qf : menu_group) : bool :=
  match umg with
  | Some g => negb (Nat.eqb (g_id g) (g_id qf))
  | None => true
  end.

Definition draw_user_menu_preference (layout_ : layout) : M unit :=
  um <- gets user_menus_of ;;
  let umg := active_group um in
  kmi <- get_keymap None false ;;
  box <- new_layout "box" layout_ [] ;;
  row <- new_layout "row" box [] ;;
  emit (prop row ref_user_menus "expanded" [("text", AStr ""); ("emboss", ABool false)]) ;;;
  qf <- index_of (menus um) 0 ;;
  (if group_differs umg qf then
     match umg with
     | None => raise TypeError   (* row.prop(None, "name") *)
     | Some g =>
         emit (prop row (ref_group (g_id g)) "name" []) ;;;
         let pie_text := if String.eqb (g_type g) "PIE" then "Pie" else "List" in
         emit (prop row (ref_group (g_id g)) "type"
                 [("text", AStr pie_text); ("expand", ABool true)])
     end
   else ret tt) ;;;
  map_type <-
    match kmi with
    | Some kmi =>
        let k := ref_kmi (kmi_id kmi) in
        emit (prop row k "map_type" [("text", AStr "")]) ;;;
        let map_type := kmi_map_type kmi in
        (if String.eqb map_type "KEYBOARD" then
           emit (prop row k "type" [("text", AStr ""); ("full_event", ABool true)])
         else if String.eqb map_type "MOUSE" then
           emit (prop row k "type" [("text", AStr ""); ("full_event", ABool true)])
         else if String.eqb map_type "NDOF" then
           emit (prop row k "type" [("text", AStr ""); ("full_event", ABool true)])
         else if String.eqb map_type "TWEAK" then
           subrow <- new_layout "row" row [] ;;
           emit (prop subrow k "type" [("text", AStr "")]) ;;;
           emit (prop subrow k "value" [("text", AStr "")])
         else if String.eqb map_type "TIMER" then
           emit (prop row k "type" [("text", AStr "")])
         else emit (label row [])) ;;;
        ret (Some map_type)
    | None => ret None
    end ;;
  um <- gets user_menus_of ;;
  if expanded um then draw_user_menu_preference_expanded box kmi map_type
  else ret tt.

(** [menu_id]: the position of [umg] in [um.menus], or [-1]. *)
Fixpoint menu_id_from (i : Z) (umg : menu_group) (l : list menu_group) : Z :=
  match l with
  | [] => -1
  | item :: l' => if Nat.eqb (g_id item) (g_id umg) then i else menu_id_from (i + 1) umg l'
  end.
Definition menu_id (umg : menu_group) : M Z :=
  um <- gets user_menus_of ;;
  ret (menu_id_from 0 umg (menus um)).

(** The first statement of [draw_user_menus]:
    [if not um.active_group: um.active_group = um.menus[0]]. *)
Definition default_active_group : M unit :=
  um <- gets user_menus_of ;;
  match active_group um with
  | None =>
      g <- index_of (menus um) 0 ;;
      modify (set_active_group g)
  | Some _ => ret tt
  end.

(** The rest of [draw_user_menus], from [split = layout.split(factor=0.4)]
    to the end. *)
Definition draw_user_menus_body (layout_ : layout) : M unit :=
  split <- new_layout "split" layout_ [("factor", AFloat 4 1)] ;;
  row <- new_layout "row" split [] ;;
  rowsub <- new_layout "row" row [("align", ABool true)] ;;
  um <- gets user_menus_of ;;
  group_name <- attr_of (active_group um) g_name ;;
  emit (menu rowsub "USERPREF_MT_menu_select" [("text", AStr group_name)]) ;;;
  emit (operator rowsub "preferences.usermenus_add"
          [("text", AStr ""); ("icon", AStr "ADD")] []) ;;;
  emit (operator rowsub "preferences.usermenus_remove"
          [("text", AStr ""); ("icon", AStr "REMOVE")] []) ;;;
  rowsub <- new_layout "row" split [("align", ABool true)] ;;
  emit (prop rowsub ref_user_menus "space_selected" [("text", AStr "")]) ;;;
  rowsub <- new_layout "row" split [("align", ABool true)] ;;
  emit (prop rowsub ref_user_menus "context_selected" [("text", AStr "")]) ;;;
  row <- new_layout "row" layout_ [] ;;
  emit (separator row) ;;;
  draw_user_menu_preference row ;;;
  row <- new_layout "row" layout_ [] ;;
  emit (separator row) ;;;
  um <- gets user_menus_of ;;
  group_type <- attr_of (active_group um) g_type ;;
  (if String.eqb group_type "PIE" then draw_pie row else draw_item_box row) ;;;
  draw_item_editor row ;;;
  emit (separator row).

Definition draw_user_menus (layout_ : layout) : M unit :=
  default_active_group ;;;
  draw_user_menus_body layout_.

End Draw.

(** *** Vocabulary of the properties *)

(** A widget call without the layout that received it (calls that only
    lay out, [sub_layout] and [set_layout_attr], are no widgets). *)
Inductive widget :=
| w_label (kw : list (string * arg))
| w_prop (data : rna) (property : string)
| w_operator (idname : string)
| w_menu (idname : string)
| w_separator
| w_template (data : rna).

Definition widget_of (c : ui_call) : option widget :=
  match c with
  | sub_layout _ _ _ _ => None
  | label _ kw => Some (w_label kw)
  | prop _ data property _ => Some (w_prop data property)
  | operator _ idname _ _ => Some (w_operator idname)
  | menu _ idname _ => Some (w_menu idname)
  | separator _ => Some w_separator
  | template_user_menu_item_properties _ data => Some (w_template data)
  | set_layout_attr _ _ _ => None
  end.

Definition widgets (calls : list ui_call) : list widget := omap widget_of calls.

(** The items whose selection button is among [calls]. *)
Definition button_of (c : ui_call) : option nat :=
  match c with
  | prop _ (ref_item id) property _ =>
      if String.eqb property "is_selected" then Some id else None
  | _ => None
  end.
Definition buttons (calls : list ui_call) : list nat := omap button_of calls.

(** The items [draw_item] reaches from a list: the items themselves and,
    under each item of type SUBMENU, the items of its submenu. *)
Fixpoint reached_from (item : menu_item) : list menu_item :=
  match item with
  | MenuItem _ _ _ type submenu =>
      item ::
      (if String.eqb type "SUBMENU" then
         match submenu with
         | Some items_list => flat_map reached_from items_list
         | None => []
         end
       else [])
  end.
Definition reached (items : list menu_item) : list menu_item :=
  flat_map reached_from items.


(** [um] once the first statement of [draw_user_menus] has run. *)
Definition with_default_group (um : user_menus) : user_menus :=
  match active_group um, menus um with
  | None, g :: _ =>
      UserMenusData (Some g) (active_item um) (menus um) (expanded um)
        (space_selected um) (context_selected um)
  | _, _ => um
  end.



(** Relations between the state before and after a call. *)
Definition same_host (s s' : state) : Prop := ctx s' = ctx s.

(** Everything but the selection flags is as before. *)
Definition same_but_selection (s s' : state) : Prop :=
  user_menus_of (ctx s') = user_menus_of (ctx s) ∧ keymaps (ctx s') = keymaps (ctx s).

(** [m] relates every state to the state it leaves, whatever the outcome. *)
Definition always {A} (R : state → state → Prop) (m : M A) : Prop :=
  ∀ s, R s (m s).2.

(** Started with [um] as the user menus, [m] returns a value satisfying
    [Q] and leaves [um] as it was. *)
Definition total {A} (um : user_menus) (m : M A) (Q : A → Prop) : Prop :=
  ∀ s, user_menus_of (ctx s) = um →
       ∃ a, (m s).1 = Ok a ∧ Q a ∧ user_menus_of (ctx (m s).2) = um.

(** Started with [um] as the user menus, [m] raises [e]. *)
Definition raises {A} (um : user_menus) (m : M A) (e : exn) : Prop :=
  ∀ s, user_menus_of (ctx s) = um → (m s).1 = Raise e.

(** The selection flags after a run that started in [s]: a flag is either
    as before or holds [item == um.active_item], and it holds that value
    for every item whose button was drawn. *)
Definition selection_drawn (s s' : state) : Prop :=
  ∃ delta,
    drawn s' = drawn s ++ delta
    ∧ user_menus_of (ctx s') = user_menus_of (ctx s)
    ∧ (∀ id, id ∈ buttons delta →
         is_selected (ctx s') !! id = Some (is_active id (user_menus_of (ctx s))))
    ∧ (∀ id, is_selected (ctx s') !! id = is_selected (ctx s) !! id
             ∨ is_selected (ctx s') !! id = Some (is_active id (user_menus_of (ctx s)))).

(** The flags of the items [ids] hold [item == um.active_item]. *)
Definition settled (um : user_menus) (s : state) (ids : list nat) : Prop :=
  user_menus_of (ctx s) = um
  ∧ ∀ id, id ∈ ids → is_selected (ctx s) !! id = Some (is_active id um).

(** A run of [m] that completes takes settled flags [X] to settled flags [Y]. *)
Definition settles {A} (um : user_menus) (X : list nat) (m : M A) (Y : list nat) : Prop :=
  ∀ s a, settled um s X → (m s).1 = Ok a → settled um (m s).2 Y.

(** The widgets of the item editor for an active item, as the type tag
    decides them. *)
Definition editor_widgets (current : menu_item) : list widget :=
  let id := it_id current in
  let type := it_type current in
  [w_prop (ref_item id) "type"]
  ++ (if String.eqb type "SEPARATOR" then []
      else [w_prop (ref_item id) "icon"; w_prop (ref_item id) "name"])
  ++ (if String.eqb type "OPERATOR"
      then [w_prop (ref_operator id) "operator"; w_template (ref_operator id)] else [])
  ++ (if String.eqb type "MENU" then [w_prop (ref_menu id) "id_name"] else [])
  ++ (if String.eqb type "PROPERTY"
      then [w_prop (ref_property id) "id_name"; w_prop (ref_property id) "context"] else []).

(** A keymap item that calls the user menu [idname]. *)
Definition calls_user_menu (idname : string) (kmi : keymap_item) : bool :=
  String.eqb (kmi_idname kmi) "wm.call_user_menu"
  && String.eqb (p_name (kmi_properties kmi)) idname.

(** The idname [get_keymap] looks for: the argument, or the idname of the
    active group when the argument is empty or [None]. *)
Definition resolved_idname (idname : option string) (um : user_menus) : option string :=
  if falsy idname then g_idname <$> active_group um else idname.

(** *** A small host, for the examples *)

Definition cut_item : menu_item := MenuItem 1 "Cut" "NONE" "OPERATOR" None.
Definition rule_item : menu_item := MenuItem 2 "" "NONE" "SEPARATOR" None.
Definition view_item : menu_item := MenuItem 4 "View" "NONE" "MENU" None.
Definition snap_item : menu_item := MenuItem 5 "Snap" "SNAP_ON" "PROPERTY" None.
Definition more_item : menu_item :=
  MenuItem 3 "More" "NONE" "SUBMENU" (Some [view_item; snap_item]).

Definition quick_favorites : menu_group := MenuGroup 0 "Quick Favorites" "quick_favorites" "LIST".
Definition full_pie : menu_group := MenuGroup 1 "Pie" "my_pie" "PIE".
Definition short_pie : menu_group := MenuGroup 2 "Short pie" "short_pie" "PIE".

(** The current menu is the menu of the active group. *)
Definition demo_current_menu (um : user_menus) : option user_menu :=
  match active_group um with
  | None => None
  | Some g =>
      if Nat.eqb (g_id g) 0 then Some (UserMenu [cut_item; rule_item; more_item])
      else if Nat.eqb (g_id g) 1 then
        Some (UserMenu [cut_item; rule_item; more_item; view_item;
                        snap_item; rule_item; rule_item; rule_item])
      else Some (UserMenu [cut_item; rule_item; more_item])
  end.

Definition demo_blank (km : keymap) : keymap_item :=
  KeymapItem (Z.of_nat (length (keymap_items km)) + 1) "" (OpProperties "" "") true
    "KEYBOARD" "NONE" "PRESS" false false false false false false "NONE".

Definition demo_api : HostAPI := {|
  has_item um :=
    match demo_current_menu um with
    | Some cm => negb (Nat.eqb (length (menu_items cm)) 0)
    | None => false
    end;
  get_current_menu := demo_current_menu;
  blank_keymap_item := demo_blank
|}.

Definition demo_kmi : keymap_item :=
  KeymapItem 1 "wm.call_user_menu" (OpProperties "my_pie" "") true
    "KEYBOARD" "Q" "PRESS" false false false true false false "NONE".

Definition demo_user_menus (active : option menu_group) (current : option menu_item)
    : user_menus :=
  UserMenusData active current [quick_favorites; full_pie; short_pie] true "VIEW_3D" "OBJECT".

Definition demo_state (active : option menu_group) (current : option menu_item) : state :=
  State (Host (demo_user_menus active current)
              [Keymap "Screen" []; Keymap "Window" [demo_kmi]]
              {[ 1%nat := true; 2%nat := true ]})
        1%nat [].

(** *** Vocabulary of the further properties *)

(** The [text] keyword of a call, when it is a string. *)
Fixpoint kw_text (kw : list (string * arg)) : option string :=
  match kw with
  | [] => None
  | (k, v) :: kw' =>
      if String.eqb k "text" then
        match v with
        | AStr t => Some t
        | _ => None
        end
      else kw_text kw'
  end.

(** The text on a selection button. *)
Definition button_text (c : ui_call) : option string :=
  match c with
  | prop _ (ref_item _) property kw =>
      if String.eqb property "is_selected" then kw_text kw else None
  | _ => None
  end.

(** The text of a label. *)
Definition label_text (c : ui_call) : option string :=
  match c with
  | label _ kw => kw_text kw
  | _ => None
  end.

(** An operator button: its idname and the properties assigned on it. *)
Definition operator_of (c : ui_call) : option (string * list (string * arg)) :=
  match c with
  | operator _ idname _ assigned => Some (idname, assigned)
  | _ => None
  end.

(** A widget bound to a menu group: the group, the property, the keywords. *)
Definition group_prop_of (c : ui_call) : option (nat * string * list (string * arg)) :=
  match c with
  | prop _ (ref_group id) property kw => Some (id, property, kw)
  | _ => None
  end.

(** A widget bound to a keymap item: the item and the property. *)
Definition kmi_prop_of (c : ui_call) : option (Z * string) :=
  match c with
  | prop _ (ref_kmi id) property _ => Some (id, property)
  | _ => None
  end.

(** Every call made between [s] and [s'] satisfies [P]. *)
Definition log_all (P : ui_call → Prop) (s s' : state) : Prop :=
  ∃ delta, drawn s' = drawn s ++ delta ∧ Forall P delta.

(** Between [s] and [s'] the flags of the items whose button was drawn hold
    [item == um.active_item]; every other flag, the user menus and the
    keymaps are as before. *)
Definition exact_selection (s s' : state) : Prop :=
  ∃ delta,
    drawn s' = drawn s ++ delta
    ∧ user_menus_of (ctx s') = user_menus_of (ctx s)
    ∧ keymaps (ctx s') = keymaps (ctx s)
    ∧ ∀ id, is_selected (ctx s') !! id
            = if bool_decide (id ∈ buttons delta)
              then Some (is_active id (user_menus_of (ctx s)))
              else is_selected (ctx s) !! id.

(** A run of [m] that starts with [um] and completes keeps [um] and makes
    calls whose image under [pick] is [L]. *)
Definition draws {X A} (pick : ui_call → option X) (um : user_menus) (m : M A)
    (L : list X) : Prop :=
  ∀ s a, user_menus_of (ctx s) = um → (m s).1 = Ok a →
    user_menus_of (ctx (m s).2) = um
    ∧ ∃ delta, drawn (m s).2 = drawn s ++ delta ∧ omap pick delta = L.


(** The eight directions of a pie, in the order [draw_pie] labels them. *)
Definition pie_directions : list string :=
  ["Left : "; "Right : "; "Down : "; "Up : ";
   "Upper left : "; "Upper right : "; "Lower left : "; "Lower right : "].

(** The buttons the item box or the pie shows for [um]: what is reached
    from the current menu, for a pie from its first eight entries. *)
Definition panel_buttons (api : HostAPI) (um : user_menus) : list nat :=
  match active_group um with
  | None => []
  | Some g =>
      if String.eqb (g_type g) "PIE" then
        match get_current_menu um with
        | Some cm => it_id <$> reached (take 8 (menu_items cm))
        | None => []
        end
      else if has_item um then
        match get_current_menu um with
        | Some cm => it_id <$> reached (menu_items cm)
        | None => []
        end
      else []
  end.



(** The text on the selection button of an item: a rule for a separator,
    one blank for another item without a name, the name otherwise. *)
Definition button_label (item : menu_item) : string :=
  if String.eqb (it_type item) "SEPARATOR" then "___________"
  else if String.eqb (it_name item) "" then " "
  else it_name item.

(** A host state with no menu group at all. *)
Definition groupless_state : state :=
  State (Host (UserMenusData None None [] true "VIEW_3D" "OBJECT")
              [Keymap "Window" []] ∅)
        1%nat [].

(** A second small host: its keymaps have no 'Window' keymap. *)
Definition windowless_state : state :=
  State (Host (demo_user_menus (Some quick_favorites) None)
              [Keymap "Screen" []; Keymap "3D View" [demo_kmi]]
              ∅)
        1%nat [].

End UserMenus.

(** * Properties of tests/python/operators.py *)

Section OperatorsFacts.
Import Operators.
Variable new_OperatorTest : list pyval → OperatorTest.

Lemma no_flag_cons cmd l : no_flag (cmd :: l) ↔ is_flag cmd = false ∧ no_flag l.
Proof.
  unfold no_flag. split.
  - inversion 1; subst. done.
  - intros [? ?]. by constructor.
Qed.

Lemma is_flag_false cmd :
  is_flag cmd = false →
  String.eqb cmd "--run-all-tests" = false ∧ String.eqb cmd "--run-test" = false.
Proof. unfold is_flag. apply orb_false_elim. Qed.

(** Arguments that are not flags are stepped over. *)
Lemma dispatch_skip command pre rest k ot :
  no_flag pre →
  dispatch command (enumerate_from k (pre ++ rest)) ot
  = dispatch command (enumerate_from (k + length pre) rest) ot.
Proof.
  revert k. induction pre as [|cmd pre IH]; intros k Hpre; simpl.
  - by rewrite Nat.add_0_r.
  - apply no_flag_cons in Hpre as [Hcmd Hpre].
    apply is_flag_false in Hcmd as [-> ->].
    rewrite IH by done. f_equal. f_equal. lia.
Qed.

Lemma dispatch_no_flag command l k ot :
  no_flag l → dispatch command (enumerate_from k l) ot = Outcome None ot [].
Proof.
  intros Hl. rewrite <- (app_nil_r l). by rewrite dispatch_skip.
Qed.

(** Every argument list is free of flags or splits at its first flag. *)
Lemma first_flag_split (l : list string) :
  no_flag l ∨ ∃ pre f post, l = pre ++ f :: post ∧ no_flag pre ∧ is_flag f = true.
Proof.
  induction l as [|cmd l IH].
  - left. constructor.
  - destruct (is_flag cmd) eqn:Hcmd.
    + right. exists [], cmd, l. repeat split; [constructor | done].
    + destruct IH as [IH | (pre & f & post & -> & Hpre & Hf)].
      * left. by apply no_flag_cons.
      * right. exists (cmd :: pre), f, post. repeat split; [|done].
        by apply no_flag_cons.
Qed.

Lemma main_at_first_flag pre f post :
  no_flag pre → is_flag f = true →
  main new_OperatorTest (pre ++ f :: post) = at_flag (new_OperatorTest tests) f post.
Proof.
  intros Hpre Hf. unfold main, enumerate, at_flag.
  rewrite dispatch_skip by done. simpl.
  destruct (String.eqb f "--run-all-tests") eqn:Hall; [done|].
  unfold is_flag in Hf. rewrite Hall in Hf. simpl in Hf. rewrite Hf.
  replace (length pre + 1)%nat with (length pre + 1 + 0)%nat by lia.
  rewrite lookup_app_r by lia.
  replace (length pre + 1 + 0 - length pre)%nat with 1%nat by lia.
  simpl. by destruct post.
Qed.

Lemma main_no_flag argv :
  no_flag argv →
  main new_OperatorTest argv = Outcome None (new_OperatorTest tests) [].
Proof. intros. unfold main, enumerate. by apply dispatch_no_flag. Qed.

(** C2 (as amended): [main] raises exactly when the first flag it meets is
    [--run-test] standing as the last argument; the index [i + 1] it then
    reads is out of range, the exception is [IndexError], and no other
    exception comes out of the loop. *)
Theorem main_raises_iff_test_name_missing (argv : list string) :
  (raised (main new_OperatorTest argv) = Some IndexError
   ↔ ∃ pre, argv = pre ++ ["--run-test"] ∧ no_flag pre
            ∧ argv !! (length pre + 1)%nat = None)
  ∧ (∀ e, raised (main new_OperatorTest argv) = Some e → e = IndexError).
Proof.
  destruct (first_flag_split argv) as [Hno | (pre & f & post & -> & Hpre & Hf)].
  - rewrite main_no_flag by done. simpl. split; [|done].
    split; [done|]. intros (pre & -> & Hpre & _).
    apply Forall_app in Hno as [_ Hno]. by inversion Hno.
  - rewrite main_at_first_flag by done. unfold at_flag.
    destruct (String.eqb f "--run-all-tests") eqn:Hall; simpl.
    + split; [|done]. split; [done|].
      intros (pre' & Heq & Hpre' & _). exfalso.
      apply String.eqb_eq in Hall as ->.
      destruct post as [|x post].
      * apply app_inj_tail in Heq as [_ Heq]. done.
      * assert (Hin : "--run-all-tests" ∈ pre').
        { apply (f_equal (λ l, removelast l)) in Heq.
          rewrite removelast_last in Heq. subst pre'.
          rewrite removelast_app by done. set_solver. }
        unfold no_flag in Hpre'. rewrite Forall_forall in Hpre'.
        by apply Hpre' in Hin.
    + unfold is_flag in Hf. rewrite Hall in Hf. simpl in Hf.
      apply String.eqb_eq in Hf as ->.
      destruct post as [|name post]; simpl.
      * split; [|by intros ? [= <-]]. split; [|done]. intros _.
        exists pre. repeat split; [done|].
        apply lookup_ge_None. rewrite length_app. simpl. lia.
      * split; [|done]. split; [done|].
        intros (pre' & Heq & Hpre' & _). exfalso.
        assert (Hin : "--run-test" ∈ pre').
        { apply (f_equal (λ l, removelast l)) in Heq.
          rewrite removelast_last in Heq. subst pre'.
          rewrite removelast_app by done. set_solver. }
        unfold no_flag in Hpre'. rewrite Forall_forall in Hpre'.
        by apply Hpre' in Hin.
Qed.

(** C4 (as amended): [main] acts on the first flag only.  When it is
    [--run-all-tests], the one call made is [run_all_tests()]; when it is
    [--run-test] followed by an argument, the one call made is [run_test]
    with that argument; when it is [--run-test] with nothing after it, no
    call is made and IndexError is raised; no invocation makes more than one
    call, and none is made when no flag is present. *)
Theorem main_dispatches_first_flag (argv : list string) :
  (∀ pre post, argv = pre ++ "--run-all-tests" :: post → no_flag pre →
     raised (main new_OperatorTest argv) = None
     ∧ calls (main new_OperatorTest argv) = [run_all_tests (new_OperatorTest tests)])
  ∧ (∀ pre name post, argv = pre ++ "--run-test" :: name :: post → no_flag pre →
     raised (main new_OperatorTest argv) = None
     ∧ ∃ self, calls (main new_OperatorTest argv) = [run_test self name])
  ∧ (∀ pre, argv = pre ++ ["--run-test"] → no_flag pre →
     raised (main new_OperatorTest argv) = Some IndexError
     ∧ calls (main new_OperatorTest argv) = [])
  ∧ (length (calls (main new_OperatorTest argv)) ≤ 1)%nat
  ∧ (no_flag argv → calls (main new_OperatorTest argv) = []).
Proof.
  repeat split.
  - subst. by rewrite main_at_first_flag.
  - subst. by rewrite main_at_first_flag.
  - subst. by rewrite main_at_first_flag.
  - subst. rewrite main_at_first_flag by done. simpl. eauto.
  - subst. by rewrite main_at_first_flag.
  - subst. by rewrite main_at_first_flag.
  - destruct (first_flag_split argv) as [Hno | (pre & f & post & -> & Hpre & Hf)].
    + rewrite main_no_flag by done. simpl. lia.
    + rewrite main_at_first_flag by done. unfold at_flag.
      destruct (String.eqb f "--run-all-tests"); [simpl; lia|].
      destruct post; simpl; lia.
  - intros Hno. by rewrite main_no_flag.
Qed.

(** C9: the script writes [apply_modifiers] (to [False]) in the [--run-test]
    branch only, and [run_test] is called on the object so written; in the
    [--run-all-tests] branch and when no flag is present the object is left
    as the constructor built it; no other attribute is ever written. *)
Theorem apply_modifiers_written_only_for_run_test (argv : list string) :
  (∀ pre post, argv = pre ++ "--run-test" :: post → no_flag pre →
     operators_test (main new_OperatorTest argv)
     = <["apply_modifiers" := PBool false]> (new_OperatorTest tests)
     ∧ ∀ c, c ∈ calls (main new_OperatorTest argv) →
         ∃ name, c = run_test (<["apply_modifiers" := PBool false]> (new_OperatorTest tests)) name)
  ∧ (∀ pre post, argv = pre ++ "--run-all-tests" :: post → no_flag pre →
     operators_test (main new_OperatorTest argv) = new_OperatorTest tests
     ∧ calls (main new_OperatorTest argv) = [run_all_tests (new_OperatorTest tests)])
  ∧ (no_flag argv → operators_test (main new_OperatorTest argv) = new_OperatorTest tests)
  ∧ (∀ field, field ≠ "apply_modifiers" →
     operators_test (main new_OperatorTest argv) !! field = new_OperatorTest tests !! field).
Proof.
  split; [|split; [|split]].
  - intros pre post -> Hpre. rewrite main_at_first_flag by done. simpl.
    destruct post as [|name post]; simpl; (split; [done|]).
    + intros c Hc. by apply elem_of_nil in Hc.
    + intros c Hc. apply list_elem_of_singleton in Hc as ->. eauto.
  - intros pre post -> Hpre. by rewrite main_at_first_flag.
  - intros Hno. by rewrite main_no_flag.
  - intros field Hfield.
    destruct (first_flag_split argv) as [Hno | (pre & f & post & -> & Hpre & Hf)].
    + by rewrite main_no_flag.
    + rewrite main_at_first_flag by done. unfold at_flag.
      destruct (String.eqb f "--run-all-tests"); [done|].
      destruct post; simpl; by rewrite lookup_insert_ne.
Qed.

(** C6 (as amended): every entry of the fixture table is a list literal (not
    a tuple) of exactly seven fields, in this order: selection mode ('VERT',
    'EDGE' or 'FACE'), set of element indices, test name, test object name,
    expected object name, operator name, parameter dict. *)
Theorem tests_entries_have_seven_fields :
  Forall (λ e, is_list_literal e = true ∧ entry_shape e = true) tests
  ∧ length tests = 36%nat.
Proof. split; [|done]. unfold tests. repeat constructor. Qed.

End OperatorsFacts.

(** C2, counterexample: [--run-test] is the last argument, yet the one index
    the loop reads, [command[i + 1]] at the first [--run-test], is in range:
    it is the test name, and nothing is raised. *)
Lemma run_test_last_without_error :
  let argv := ["operators.py"; "--run-test"; "CubeBisect"; "--run-test"] in
  last argv = Some "--run-test"
  ∧ Operators.raised (Operators.main Operators.bare_OperatorTest argv) = None
  ∧ ∃ self, Operators.calls (Operators.main Operators.bare_OperatorTest argv)
            = [Operators.run_test self "CubeBisect"].
Proof. repeat split. eexists. reflexivity. Qed.

Lemma main_raises_iff_test_name_missing_witness :
  Operators.raised
    (Operators.main Operators.bare_OperatorTest ["operators.py"; "--run-test"])
  = Some IndexError.
Proof.
  apply (main_raises_iff_test_name_missing Operators.bare_OperatorTest
           ["operators.py"; "--run-test"]).
  exists ["operators.py"]. repeat split.
  repeat constructor.
Defined.

(** C4, counterexample: [--run-test] is the first flag met, nothing follows
    it, and no call into the [OperatorTest] object is made: IndexError is
    raised instead. *)
Lemma run_test_without_name_makes_no_call :
  let argv := ["operators.py"; "--run-test"] in
  argv = ["operators.py"] ++ ["--run-test"]
  ∧ Operators.no_flag ["operators.py"]
  ∧ Operators.calls (Operators.main Operators.bare_OperatorTest argv) = []
  ∧ Operators.raised (Operators.main Operators.bare_OperatorTest argv) = Some IndexError.
Proof. repeat split. repeat constructor. Qed.

Lemma main_dispatches_first_flag_witness :
  ∃ self,
    Operators.calls
      (Operators.main Operators.bare_OperatorTest
         ["operators.py"; "--run-test"; "CubeBisect"; "--run-all-tests"])
    = [Operators.run_test self "CubeBisect"].
Proof.
  apply (main_dispatches_first_flag Operators.bare_OperatorTest
           ["operators.py"; "--run-test"; "CubeBisect"; "--run-all-tests"]
         ) with (pre := ["operators.py"]) (post := ["--run-all-tests"]).
  - reflexivity.
  - repeat constructor.
Defined.

Lemma apply_modifiers_written_only_for_run_test_witness :
  Operators.operators_test
    (Operators.main Operators.bare_OperatorTest ["operators.py"; "--run-all-tests"])
  = Operators.bare_OperatorTest Operators.tests.
Proof.
  apply (apply_modifiers_written_only_for_run_test Operators.bare_OperatorTest
           ["operators.py"; "--run-all-tests"]) with (pre := ["operators.py"]) (post := []).
  - reflexivity.
  - repeat constructor.
Defined.

(** C6, counterexample: the first entry is a list, not a tuple, it has seven
    fields, and it is not of the six-field shape. *)
Lemma first_entry_not_six_fields :
  ∃ e l, Operators.tests !! 0%nat = Some e ∧ e = Operators.PList l
         ∧ (∀ l', e ≠ Operators.PTuple l')
         ∧ length l = 7%nat ∧ Operators.spec_entry_shape e = false.
Proof. eexists _, _. repeat split. intros l'. discriminate. Qed.

(** * Properties of release/scripts/modules/rna_user_menus_ui.py *)

Import UserMenus.

(** ** Running the monad *)

Lemma bind_ok {A B} (m : M A) (f : A → M B) s a :
  (m s).1 = Ok a → bind m f s = f a (m s).2.
Proof. unfold bind. destruct (m s) as [[a'|e] s']; simpl; congruence. Qed.

Lemma bind_raise {A B} (m : M A) (f : A → M B) s e :
  (m s).1 = Raise e → bind m f s = (Raise e, (m s).2).
Proof. unfold bind. destruct (m s) as [[a'|e'] s']; simpl; congruence. Qed.

(** ** What every outcome preserves *)

Section Always.
Context (R : state → state → Prop) `{!PreOrder R}.

Lemma always_ret {A} (a : A) : always R (ret a).
Proof. intros s. simpl. reflexivity. Qed.

Lemma always_raise {A} e : always R (raise (A := A) e).
Proof. intros s. simpl. reflexivity. Qed.

Lemma always_gets {A} (f : host → A) : always R (gets f).
Proof. intros s. simpl. reflexivity. Qed.

Lemma always_bind {A B} (m : M A) (f : A → M B) :
  always R m → (∀ a, always R (f a)) → always R (bind m f).
Proof.
  intros Hm Hf s. specialize (Hm s). unfold bind.
  destruct (m s) as [[a|e] s']; simpl in *; [|done].
  etrans; [exact Hm | apply Hf].
Qed.

Lemma always_for_each {A} (body : A → M unit) l :
  Forall (λ x, always R (body x)) l → always R (for_each body l).
Proof.
  induction 1; simpl.
  - apply always_ret.
  - by apply always_bind.
Qed.

Lemma always_attr_of {A B} (o : option A) (f : A → B) : always R (attr_of o f).
Proof. destruct o; [apply always_ret | apply always_raise]. Qed.

Lemma always_index_of {A} (l : list A) i : always R (index_of l i).
Proof. unfold index_of. destruct (l !! i); [apply always_ret | apply always_raise]. Qed.

End Always.

Lemma always_weaken {A} (R R' : state → state → Prop) (m : M A) :
  (∀ s s', R s s' → R' s s') → always R m → always R' m.
Proof. intros HR Hm s. apply HR, Hm. Qed.

Global Instance same_host_preorder : PreOrder same_host.
Proof. split; [done|]. unfold same_host. intros s1 s2 s3. congruence. Qed.

Global Instance same_but_selection_preorder : PreOrder same_but_selection.
Proof.
  split; [done|]. unfold same_but_selection.
  intros s1 s2 s3 [? ?] [? ?]. split; congruence.
Qed.

Lemma same_host_but_selection s s' : same_host s s' → same_but_selection s s'.
Proof. unfold same_host, same_but_selection. by intros ->. Qed.

Lemma emit_same_host c : always same_host (emit c).
Proof. done. Qed.

Lemma new_layout_same_host kind parent kw : always same_host (new_layout kind parent kw).
Proof. done. Qed.

Lemma select_same_but_selection id b :
  always same_but_selection (modify (set_is_selected id b)).
Proof. done. Qed.

Create HintDb frame discriminated.
#[global] Hint Resolve always_ret always_raise always_gets always_attr_of always_index_of
  emit_same_host new_layout_same_host select_same_but_selection : frame.

(** One step of a frame proof: split a bind, or take the branches apart. *)
Ltac frame_step :=
  match goal with
  | |- always _ (bind _ _) => apply always_bind; [try apply _ | | intros ?]
  | |- always _ (if ?b then _ else _) => destruct b
  | |- always _ (match ?o with Some _ => _ | None => _ end) => destruct o
  | |- always _ (let _ := _ in _) => cbv zeta
  | |- always same_but_selection (emit _) =>
      apply (always_weaken same_host); [apply same_host_but_selection | apply emit_same_host]
  | |- always same_but_selection (new_layout _ _ _) =>
      apply (always_weaken same_host);
      [apply same_host_but_selection | apply new_layout_same_host]
  | |- always _ _ => solve [eauto with frame typeclass_instances]
  end.
Ltac frame := repeat frame_step.

Section Frames.
Context `{HostAPI}.

Lemma get_keymap_reads_only idname : always same_host (get_keymap idname false).
Proof. unfold get_keymap. frame. Qed.

Lemma draw_item_editor_same_host row : always same_host (draw_item_editor row).
Proof. unfold draw_item_editor. frame. Qed.

End Frames.

(** Induction on a menu item, with the items of its submenu as smaller. *)
Lemma menu_item_nested_ind (P : menu_item → Prop) :
  (∀ id name icon type, P (MenuItem id name icon type None)) →
  (∀ id name icon type l, Forall P l → P (MenuItem id name icon type (Some l))) →
  ∀ item, P item.
Proof.
  intros Hnone Hsome. fix rec 1. intros [id name icon type [l|]].
  - apply Hsome. revert l. fix go 1. intros [|x l].
    + constructor.
    + constructor; [apply rec | apply go].
  - apply Hnone.
Qed.

Section Frames2.
Context `{HostAPI}.

Lemma draw_button_frame item :
  ∀ box index, always same_but_selection (draw_button box item index).
Proof.
  induction item as [id name icon type | id name icon type l IH] using menu_item_nested_ind;
    intros box index; simpl; frame.
  unfold draw_item_with. apply always_for_each; [apply _|].
  eapply Forall_impl; [exact IH|]. intros item Hitem. apply Hitem.
Qed.

Lemma draw_item_frame box items : always same_but_selection (draw_item box items).
Proof.
  unfold draw_item, draw_item_with. apply always_for_each; [apply _|].
  apply Forall_forall. intros item _. apply draw_button_frame.
Qed.

#[local] Hint Resolve draw_button_frame draw_item_frame : frame.

Lemma draw_item_box_frame row : always same_but_selection (draw_item_box row).
Proof. unfold draw_item_box. frame. Qed.

Lemma draw_pie_item_frame col item label_ index :
  always same_but_selection (draw_pie_item col item label_ index).
Proof. unfold draw_pie_item. frame. Qed.

#[local] Hint Resolve draw_pie_item_frame : frame.

Lemma draw_pie_line_frame col cm i label_ :
  always same_but_selection (draw_pie_line col cm i label_).
Proof. unfold draw_pie_line. frame. Qed.

#[local] Hint Resolve draw_pie_line_frame : frame.

Lemma draw_pie_frame row : always same_but_selection (draw_pie row).
Proof. unfold draw_pie. frame. Qed.

Lemma draw_user_menu_preference_expanded_same_host layout_ kmi map_type :
  always same_host (draw_user_menu_preference_expanded layout_ kmi map_type).
Proof. unfold draw_user_menu_preference_expanded. frame. Qed.

#[local] Hint Resolve get_keymap_reads_only draw_user_menu_preference_expanded_same_host
  : frame.

Lemma draw_user_menu_preference_same_host layout_ :
  always same_host (draw_user_menu_preference layout_).
Proof. unfold draw_user_menu_preference. frame. Qed.

Lemma same_host_weaken {A} (m : M A) : always same_host m → always same_but_selection m.
Proof. apply always_weaken, same_host_but_selection. Qed.

#[local] Hint Resolve draw_item_box_frame draw_pie_frame : frame.

Lemma draw_user_menus_body_frame layout_ :
  always same_but_selection (draw_user_menus_body layout_).
Proof.
  unfold draw_user_menus_body. frame.
  all: apply same_host_weaken;
    first [apply draw_user_menu_preference_same_host | apply draw_item_editor_same_host].
Qed.

End Frames2.

(** ** Runs that complete *)


Section Total.
Context `{HostAPI} (um : user_menus).

Lemma total_weaken {A} (m : M A) (Q Q' : A → Prop) :
  total um m Q → (∀ a, Q a → Q' a) → total um m Q'.
Proof.
  intros Hm HQ s Hs. destruct (Hm s Hs) as (a & Ha & HQa & Hum). eauto.
Qed.

Lemma total_ret {A} (a : A) (Q : A → Prop) : Q a → total um (ret a) Q.
Proof. intros HQ s Hs. exists a. eauto. Qed.

Lemma total_bind {A B} (m : M A) (f : A → M B) (Q : B → Prop) :
  total um m (λ a, total um (f a) Q) → total um (bind m f) Q.
Proof.
  intros Hm s Hs. destruct (Hm s Hs) as (a & Ha & Hf & Hum).
  rewrite (bind_ok _ _ _ _ Ha). by apply Hf.
Qed.

Lemma total_user_menus (Q : user_menus → Prop) :
  Q um → total um (gets user_menus_of) Q.
Proof. intros HQ s Hs. exists um. simpl. rewrite Hs. eauto. Qed.

Lemma total_gets {A} (f : host → A) (Q : A → Prop) :
  (∀ a, Q a) → total um (gets f) Q.
Proof. intros HQ s Hs. exists (f (ctx s)). eauto. Qed.

Lemma total_emit c (Q : unit → Prop) : Q tt → total um (emit c) Q.
Proof. intros HQ s Hs. exists tt. eauto. Qed.

Lemma total_new_layout kind parent kw (Q : layout → Prop) :
  (∀ l, Q l) → total um (new_layout kind parent kw) Q.
Proof. intros HQ s Hs. exists (fresh s). eauto. Qed.

Lemma total_select id b (Q : unit → Prop) :
  Q tt → total um (modify (set_is_selected id b)) Q.
Proof. intros HQ s Hs. exists tt. eauto. Qed.

Lemma total_attr_of {A B} (o : option A) (f : A → B) a (Q : B → Prop) :
  o = Some a → Q (f a) → total um (attr_of o f) Q.
Proof. intros -> HQ. by apply total_ret. Qed.

Lemma total_index_of {A} (l : list A) i a (Q : A → Prop) :
  l !! i = Some a → Q a → total um (index_of l i) Q.
Proof. intros Hl HQ. unfold index_of. rewrite Hl. by apply total_ret. Qed.


(** Runs that raise. *)
Lemma raises_raise {A} e : raises um (raise (A := A) e) e.
Proof. by intros s Hs. Qed.

Lemma raises_index_of {A} (l : list A) i :
  l !! i = None → raises um (index_of l i) IndexError.
Proof. intros Hl s Hs. unfold index_of. by rewrite Hl. Qed.

Lemma raises_bind_l {A B} (m : M A) (f : A → M B) e :
  raises um m e → raises um (bind m f) e.
Proof. intros Hm s Hs. by rewrite (bind_raise _ _ _ _ (Hm s Hs)). Qed.

Lemma raises_bind_r {A B} (m : M A) (f : A → M B) e :
  total um m (λ a, raises um (f a) e) → raises um (bind m f) e.
Proof.
  intros Hm s Hs. destruct (Hm s Hs) as (a & Ha & Hf & Hum).
  rewrite (bind_ok _ _ _ _ Ha). by apply Hf.
Qed.

End Total.

(** One step of a completion proof. *)
Ltac total_step :=
  match goal with
  | |- total _ (bind _ _) _ => apply total_bind
  | |- total _ (ret _) _ => apply total_ret
  | |- total _ (gets user_menus_of) _ => apply total_user_menus
  | |- total _ (gets _) _ => apply total_gets; intros ?
  | |- total _ (emit _) _ => apply total_emit
  | |- total _ (new_layout _ _ _) _ => apply total_new_layout; intros ?
  | |- total _ (modify (set_is_selected _ _)) _ => apply total_select
  | |- total _ (if ?b then _ else _) _ => destruct b eqn:?
  | |- total _ (let _ := _ in _) _ => cbv zeta
  | |- True => exact I
  end; cbv beta.
Ltac total := repeat total_step.

Section Completion.
Context `{HostAPI} (um : user_menus).












Lemma get_keymap_total g idname :
  active_group um = Some g → total um (get_keymap idname false) (λ _, True).
Proof.
  intros Hg. unfold get_keymap. total.
  - apply (total_attr_of _ _ _ g); [done|]. total.
    destruct (find_in_keymaps _ _); by apply total_ret.
  - destruct (find_in_keymaps _ _); by apply total_ret.
Qed.

Lemma draw_user_menu_preference_expanded_total layout_ kmi map_type :
  total um (draw_user_menu_preference_expanded layout_ kmi map_type) (λ _, True).
Proof.
  unfold draw_user_menu_preference_expanded. total.
  destruct kmi; total.
Qed.

Lemma draw_user_menu_preference_total g g0 rest layout_ :
  active_group um = Some g → menus um = g0 :: rest →
  total um (draw_user_menu_preference layout_) (λ _, True).
Proof.
  intros Hg Hmenus. unfold draw_user_menu_preference. total.
  eapply total_weaken; [by apply (get_keymap_total g)|]. intros kmi _. total.
  apply (total_index_of _ _ _ g0); [by rewrite Hmenus|].
  rewrite Hg. total.
  all: destruct kmi as [kmi|]; total.
  all: try apply draw_user_menu_preference_expanded_total.
Qed.


End Completion.

Section Outcome.
Context `{HostAPI}.

Lemma total_run (m : M unit) s :
  total (user_menus_of (ctx s)) m (λ _, True) → (m s).1 = Ok tt.
Proof. intros Hm. destruct (Hm s eq_refl) as ([] & Hrun & _). exact Hrun. Qed.

Lemma raises_run {A} (m : M A) s e :
  raises (user_menus_of (ctx s)) m e → (m s).1 = Raise e.
Proof. intros Hm. by apply Hm. Qed.



Lemma default_active_group_set s g :
  active_group (user_menus_of (ctx s)) = Some g → default_active_group s = (Ok tt, s).
Proof. intros Hg. unfold default_active_group, bind, gets. simpl. by rewrite Hg. Qed.

Lemma default_active_group_unset s g rest :
  active_group (user_menus_of (ctx s)) = None →
  menus (user_menus_of (ctx s)) = g :: rest →
  default_active_group s
  = (Ok tt, State (set_active_group g (ctx s)) (fresh s) (drawn s)).
Proof.
  intros Hg Hmenus. unfold default_active_group, bind, gets, index_of. simpl.
  rewrite Hg, Hmenus. reflexivity.
Qed.

Lemma draw_user_menus_set layout_ s g :
  active_group (user_menus_of (ctx s)) = Some g →
  draw_user_menus layout_ s = draw_user_menus_body layout_ s.
Proof.
  intros Hg. unfold draw_user_menus, bind at 1.
  by rewrite (default_active_group_set s g).
Qed.

Lemma draw_user_menus_unset layout_ s g rest :
  active_group (user_menus_of (ctx s)) = None →
  menus (user_menus_of (ctx s)) = g :: rest →
  draw_user_menus layout_ s
  = draw_user_menus_body layout_ (State (set_active_group g (ctx s)) (fresh s) (drawn s)).
Proof.
  intros Hg Hmenus. unfold draw_user_menus, bind at 1.
  by rewrite (default_active_group_unset s g rest).
Qed.

Lemma default_active_group_no_menus s :
  active_group (user_menus_of (ctx s)) = None →
  menus (user_menus_of (ctx s)) = [] →
  default_active_group s = (Raise IndexError, s).
Proof.
  intros Hg Hmenus. unfold default_active_group, bind, gets, index_of. simpl.
  rewrite Hg, Hmenus. reflexivity.
Qed.

Lemma draw_user_menus_no_menus layout_ s :
  active_group (user_menus_of (ctx s)) = None →
  menus (user_menus_of (ctx s)) = [] →
  draw_user_menus layout_ s = (Raise IndexError, s).
Proof.
  intros Hg Hmenus. unfold draw_user_menus, bind at 1.
  by rewrite default_active_group_no_menus.
Qed.

End Outcome.


(** ** The selection flags *)

Global Instance selection_drawn_preorder : PreOrder selection_drawn.
Proof.
  split.
  - intros s. exists []. rewrite app_nil_r. repeat split; [|by left].
    intros id Hid. by apply elem_of_nil in Hid.
  - intros s1 s2 s3 (d1 & Hd1 & Hum1 & Hb1 & Hf1) (d2 & Hd2 & Hum2 & Hb2 & Hf2).
    exists (d1 ++ d2). rewrite Hum1 in *. repeat split.
    + by rewrite Hd2, Hd1, app_assoc.
    + congruence.
    + intros id Hid. unfold buttons in Hid. rewrite omap_app in Hid.
      apply elem_of_app in Hid as [Hid | Hid].
      * destruct (Hf2 id) as [Heq | Heq]; [|done]. rewrite Heq. by apply Hb1.
      * by apply Hb2.
    + intros id. destruct (Hf2 id) as [Heq | Heq]; [|by right].
      rewrite Heq. apply Hf1.
Qed.

Lemma emit_selection c : button_of c = None → always selection_drawn (emit c).
Proof.
  intros Hc s. exists [c]. simpl. repeat split; [|by left].
  intros id Hid. unfold buttons in Hid. simpl in Hid. rewrite Hc in Hid.
  by apply elem_of_nil in Hid.
Qed.

Lemma new_layout_selection kind parent kw :
  always selection_drawn (new_layout kind parent kw).
Proof.
  intros s. exists [sub_layout kind parent (fresh s) kw]. simpl.
  repeat split; [|by left].
  intros id Hid. by apply elem_of_nil in Hid.
Qed.

(** The first statements of [draw_button], up to the selection button. *)
Lemma button_selection s id box kw :
  let col := fresh s in
  let row := S (fresh s) in
  selection_drawn s
    (State (set_is_selected id (is_active id (user_menus_of (ctx s))) (ctx s))
       (S (S (fresh s)))
       (((drawn s ++ [sub_layout "column" box col [("align", ABool true)]])
         ++ [sub_layout "row" col row [("align", ABool true)]])
        ++ [prop row (ref_item id) "is_selected" kw])).
Proof.
  intros col row.
  exists [sub_layout "column" box col [("align", ABool true)];
          sub_layout "row" col row [("align", ABool true)];
          prop row (ref_item id) "is_selected" kw].
  simpl. repeat split.
  - by rewrite <- !app_assoc.
  - intros id' Hid. apply list_elem_of_singleton in Hid as ->.
    apply lookup_insert_eq.
  - intros id'. destruct (decide (id = id')) as [<- | Hne].
    + right. apply lookup_insert_eq.
    + left. by apply lookup_insert_ne.
Qed.

#[global] Hint Resolve new_layout_selection : frame.
#[global] Hint Extern 1 (always selection_drawn (emit _)) =>
  apply emit_selection; reflexivity : frame.

Section Selection.

Lemma draw_button_selection item :
  ∀ box index, always selection_drawn (draw_button box item index).
Proof.
  induction item as [id name icon type | id name icon type l IH] using menu_item_nested_ind;
    intros box index s; simpl; do 5 (unfold bind at 1; simpl).
  all: match goal with
       | |- selection_drawn ?s0 (?k ?s1).2 =>
           transitivity s1; [apply button_selection|]; generalize s1
       end.
  all: match goal with |- ∀ s1, selection_drawn s1 (?k s1).2 => change (always selection_drawn k) end.
  - frame.
  - frame.
    all: unfold draw_item_with; apply always_for_each; [apply _|].
    all: eapply Forall_impl; [exact IH|]; intros item Hitem; apply Hitem.
Qed.

Lemma draw_item_selection box items : always selection_drawn (draw_item box items).
Proof.
  unfold draw_item, draw_item_with. apply always_for_each; [apply _|].
  apply Forall_forall. intros item _. apply draw_button_selection.
Qed.

End Selection.

Lemma bind_ok_inv {A B} (m : M A) (f : A → M B) s b :
  (bind m f s).1 = Ok b → ∃ a, (m s).1 = Ok a ∧ bind m f s = f a (m s).2.
Proof.
  unfold bind. destruct (m s) as [[a|e] s']; simpl; [|done].
  intros Hf. by exists a.
Qed.

Section Settles.
Context (um : user_menus).

Lemma settles_bind {A B} (m : M A) (f : A → M B) X Y Z :
  settles um X m Y → (∀ a, settles um Y (f a) Z) → settles um X (bind m f) Z.
Proof.
  intros Hm Hf s b HX Hok.
  destruct (bind_ok_inv _ _ _ _ Hok) as (a & Ha & Heq).
  rewrite Heq in Hok |- *. eapply Hf; [|exact Hok]. by eapply Hm.
Qed.

(** Flags that are settled stay settled. *)
Lemma settles_frame {A} (m : M A) X : always selection_drawn m → settles um X m X.
Proof.
  intros Hm s a [Hum HX] _.
  destruct (Hm s) as (delta & _ & Hum' & _ & Hf). rewrite Hum in *.
  split; [done|]. intros id Hid.
  destruct (Hf id) as [Heq | Heq]; [|done]. rewrite Heq. by apply HX.
Qed.

Lemma settles_weaken {A} (m : M A) X Y Y' :
  Y' ⊆ Y → settles um X m Y → settles um X m Y'.
Proof.
  intros Hsub Hm s a HX Hok. destruct (Hm s a HX Hok) as [Hum HY].
  split; [done|]. intros id Hid. apply HY, Hsub, Hid.
Qed.

Lemma settles_for_each {A} (body : A → M unit) (g : A → list nat) l :
  Forall (λ x, ∀ X, settles um X (body x) (g x ++ X)) l →
  ∀ X, settles um X (for_each body l) (flat_map g l ++ X).
Proof.
  induction 1 as [|x l Hx Hl IH]; intros X; simpl.
  - apply settles_frame, always_ret, _.
  - eapply settles_bind; [apply Hx|]. intros _.
    eapply settles_weaken; [|apply IH].
    intros id. rewrite !elem_of_app. tauto.
Qed.

(** A run that starts with a step to [s1] and goes on as [k]. *)
Lemma settles_from {A} (m : M A) X Y :
  (∀ s, settled um s X →
        ∃ (k : M A) s1 X1, m s = k s1 ∧ settled um s1 X1 ∧ settles um X1 k Y) →
  settles um X m Y.
Proof.
  intros Hm s a HX. destruct (Hm s HX) as (k & s1 & X1 & -> & Hs1 & Hk).
  by apply Hk.
Qed.

Lemma flat_map_ids (l : list menu_item) :
  flat_map (λ item, it_id <$> reached_from item) l = it_id <$> flat_map reached_from l.
Proof.
  induction l as [|x l IH]; simpl; [done|]. by rewrite fmap_app, IH.
Qed.

Lemma draw_button_settles item :
  ∀ box index X,
    settles um X (draw_button box item index) ((it_id <$> reached_from item) ++ X).
Proof.
  induction item as [id name icon type | id name icon type l IH] using menu_item_nested_ind;
    intros box index X; apply settles_from; intros s HX.
  all: eexists _, _, (id :: X).
  all: split; [simpl; do 5 (unfold bind at 1; simpl); reflexivity|].
  all: split;
    [ destruct HX as [Hum HX]; split; [done|]; simpl; rewrite Hum;
      intros id' Hid; destruct (decide (id = id')) as [<- | Hne];
      [ apply lookup_insert_eq
      | rewrite lookup_insert_ne by done; apply HX;
        apply elem_of_cons in Hid as [-> | Hid]; done ]
    | ].
  - simpl. destruct (String.eqb type "SUBMENU"); simpl.
    + apply settles_bind with (Y := id :: X); [apply settles_frame; frame|].
      intros ?. apply settles_frame. frame.
    + apply settles_frame. frame.
  - simpl. destruct (String.eqb type "SUBMENU"); simpl; [|apply settles_frame; frame].
    do 4 (apply settles_bind with (Y := id :: X); [apply settles_frame; frame|]; intros ?).
    eapply settles_weaken;
      [|apply (settles_for_each _ (λ item, it_id <$> reached_from item))].
    + rewrite flat_map_ids. intros x.
      rewrite !elem_of_cons, !elem_of_app, elem_of_cons. tauto.
    + eapply Forall_impl; [exact IH|]. intros item Hitem X'. apply Hitem.
Qed.

End Settles.

(** C10: whatever the outcome of [draw_item] (and of [draw_button]), every
    item whose selection button was drawn has [is_selected] equal to
    [item == um.active_item], and every other flag is as before or holds
    that same value; when the run completes, this covers every item
    reached from the list, whatever its flag was before. *)
Theorem draw_item_sets_selection (s : state) :
  (∀ box items,
     selection_drawn s (draw_item box items s).2
     ∧ ((draw_item box items s).1 = Ok tt →
        ∀ item, item ∈ reached items →
          is_selected (ctx (draw_item box items s).2) !! it_id item
          = Some (is_active (it_id item) (user_menus_of (ctx s)))))
  ∧ (∀ box item index,
     selection_drawn s (draw_button box item index s).2
     ∧ ((draw_button box item index s).1 = Ok tt →
        ∀ item', item' ∈ reached_from item →
          is_selected (ctx (draw_button box item index s).2) !! it_id item'
          = Some (is_active (it_id item') (user_menus_of (ctx s))))).
Proof.
  assert (Hs : settled (user_menus_of (ctx s)) s []).
  { split; [done|]. intros id Hid. by apply elem_of_nil in Hid. }
  split.
  - intros box items. split; [apply draw_item_selection|].
    intros Hok item Hitem.
    assert (Hall : settles (user_menus_of (ctx s)) [] (draw_item box items)
                     (flat_map (λ item, it_id <$> reached_from item) items ++ [])).
    { unfold draw_item, draw_item_with. apply settles_for_each.
      apply Forall_forall. intros x _ X. apply draw_button_settles. }
    destruct (Hall s tt Hs Hok) as [_ Hflags]. apply Hflags.
    rewrite app_nil_r, flat_map_ids. by apply list_elem_of_fmap_2.
  - intros box item index. split; [apply draw_button_selection|].
    intros Hok item' Hitem.
    destruct (draw_button_settles _ item box index [] s tt Hs Hok) as [_ Hflags].
    apply Hflags. rewrite app_nil_r. by apply list_elem_of_fmap_2.
Qed.

Section HostWrites.
Context `{HostAPI}.

Lemma draw_user_menus_user_menus layout_ s :
  keymaps (ctx (draw_user_menus layout_ s).2) = keymaps (ctx s)
  ∧ user_menus_of (ctx (draw_user_menus layout_ s).2)
    = with_default_group (user_menus_of (ctx s)).
Proof.
  unfold with_default_group.
  destruct (active_group (user_menus_of (ctx s))) as [g|] eqn:Hg.
  - rewrite (draw_user_menus_set layout_ s g) by done.
    destruct (draw_user_menus_body_frame layout_ s) as [Hum Hkm]. by rewrite Hum, Hkm.
  - destruct (menus (user_menus_of (ctx s))) as [|g rest] eqn:Hmenus.
    + by rewrite draw_user_menus_no_menus.
    + rewrite (draw_user_menus_unset layout_ s g rest) by done.
      destruct (draw_user_menus_body_frame layout_
                  (State (set_active_group g (ctx s)) (fresh s) (drawn s)))
        as [Hum Hkm].
      rewrite Hum, Hkm. simpl. by rewrite Hmenus.
Qed.

(** [get_keymap] writes nothing but the keymaps. *)
Lemma get_keymap_keeps_menus idname ensure s :
  user_menus_of (ctx (get_keymap idname ensure s).2) = user_menus_of (ctx s)
  ∧ is_selected (ctx (get_keymap idname ensure s).2) = is_selected (ctx s).
Proof.
  unfold get_keymap, bind, gets. simpl.
  destruct (if falsy idname then _ else _) as [[target|e] s'] eqn:Hres.
  - assert (s' = s) as ->.
    { destruct (falsy idname); [|by injection Hres].
      unfold attr_of in Hres. destruct (active_group _); by injection Hres. }
    destruct (find_in_keymaps _ _); [done|].
    destruct ensure; [|done].
    destruct (keymap_named _ _ _) as [[i km]|]; done.
  - assert (s' = s) as ->; [|done].
    destruct (falsy idname); [|done].
    unfold attr_of in Hres. destruct (active_group _); by injection Hres.
Qed.

End HostWrites.

(** C1 (as amended): the module writes host state in three places only.
    [draw_button] writes the [is_selected] flag of the items it draws,
    [draw_user_menus] sets [um.active_group] when it is unset, and
    [get_keymap] called with [ensure] creates a keymap item.  Apart from
    that: [get_keymap] without [ensure], [draw_item_editor] and
    [draw_user_menu_preference] leave the host state as it is;
    [draw_button], [draw_item], [draw_item_box] and [draw_pie] leave the
    user menus and the keymaps as they are; [draw_user_menus] leaves the
    keymaps as they are and changes the user menus by the default group
    only; [get_keymap] with [ensure] leaves the user menus and the flags as
    they are. *)
Theorem host_writes (api : HostAPI) (s : state) :
  (∀ idname, ctx (get_keymap idname false s).2 = ctx s)
  ∧ (∀ row, ctx (draw_item_editor row s).2 = ctx s)
  ∧ (∀ layout_, ctx (draw_user_menu_preference layout_ s).2 = ctx s)
  ∧ (∀ box item index, same_but_selection s (draw_button box item index s).2)
  ∧ (∀ box items, same_but_selection s (draw_item box items s).2)
  ∧ (∀ row, same_but_selection s (draw_item_box row s).2)
  ∧ (∀ row, same_but_selection s (draw_pie row s).2)
  ∧ (∀ layout_,
       keymaps (ctx (draw_user_menus layout_ s).2) = keymaps (ctx s)
       ∧ user_menus_of (ctx (draw_user_menus layout_ s).2)
         = with_default_group (user_menus_of (ctx s)))
  ∧ (∀ idname ensure,
       user_menus_of (ctx (get_keymap idname ensure s).2) = user_menus_of (ctx s)
       ∧ is_selected (ctx (get_keymap idname ensure s).2) = is_selected (ctx s)).
Proof.
  repeat apply conj.
  - intros idname. apply get_keymap_reads_only.
  - intros row. apply draw_item_editor_same_host.
  - intros layout_. apply draw_user_menu_preference_same_host.
  - intros box item index. apply draw_button_frame.
  - intros box items. apply draw_item_frame.
  - intros row. apply draw_item_box_frame.
  - intros row. apply draw_pie_frame.
  - intros layout_. apply draw_user_menus_user_menus.
  - intros idname ensure. apply get_keymap_keeps_menus.
Qed.

(** C5 (as amended): when [um.active_group] is unset and [um.menus] has a
    first element, [draw_user_menus] is the rest of the function run on the
    state in which [um.active_group] is [um.menus[0]] and nothing has been
    drawn yet; when it is set, it is the rest of the function run on the
    state as it is; either way the group is the active group afterwards.
    When it is unset and [um.menus] is empty, reading [um.menus[0]] raises
    IndexError: nothing is assigned and nothing is drawn. *)
Theorem active_group_defaults_to_first_menu (api : HostAPI) (layout_ : layout) (s : state) :
  (∀ g rest,
     active_group (user_menus_of (ctx s)) = None →
     menus (user_menus_of (ctx s)) = g :: rest →
     draw_user_menus layout_ s
     = draw_user_menus_body layout_ (State (set_active_group g (ctx s)) (fresh s) (drawn s))
     ∧ active_group (user_menus_of (ctx (draw_user_menus layout_ s).2)) = Some g)
  ∧ (∀ g,
     active_group (user_menus_of (ctx s)) = Some g →
     draw_user_menus layout_ s = draw_user_menus_body layout_ s
     ∧ active_group (user_menus_of (ctx (draw_user_menus layout_ s).2)) = Some g)
  ∧ (active_group (user_menus_of (ctx s)) = None →
     menus (user_menus_of (ctx s)) = [] →
     draw_user_menus layout_ s = (Raise IndexError, s)).
Proof.
  split; [|split; [|apply draw_user_menus_no_menus]].
  - intros g rest Hg Hmenus. split.
    + by apply (draw_user_menus_unset _ _ _ rest).
    + destruct (draw_user_menus_user_menus layout_ s) as [_ ->].
      unfold with_default_group. by rewrite Hg, Hmenus.
  - intros g Hg. split.
    + by apply (draw_user_menus_set _ _ g).
    + destruct (draw_user_menus_user_menus layout_ s) as [_ ->].
      unfold with_default_group. by rewrite Hg.
Qed.

(** C7: [draw_item_editor] completes and leaves the host state as it is.
    With no item it shows the two help labels; with items and no active
    item the label 'No item selected.'; with an active item the widgets its
    type tag decides: the type selector always, icon and name unless the
    type is SEPARATOR, the operator widgets for OPERATOR, the id_name widget
    for MENU, the id_name and context widgets for PROPERTY. *)
Theorem draw_item_editor_widgets (api : HostAPI) (row : layout) (s : state) :
  ∃ delta,
    (draw_item_editor row s).1 = Ok tt
    ∧ ctx (draw_item_editor row s).2 = ctx s
    ∧ drawn (draw_item_editor row s).2 = drawn s ++ delta
    ∧ widgets delta =
        if has_item (user_menus_of (ctx s)) then
          match active_item (user_menus_of (ctx s)) with
          | Some current => editor_widgets current
          | None => [w_label [("text", AStr "No item selected.")]]
          end
        else [w_label [("text", AStr "No item in this list.")];
              w_label [("text", AStr "Add one or choose another list to get started")]].
Proof.
  unfold draw_item_editor, editor_widgets, bind, gets, emit, new_layout, ret. simpl.
  destruct (has_item (user_menus_of (ctx s))); simpl.
  - destruct (active_item (user_menus_of (ctx s))) as [current|]; simpl.
    + destruct (String.eqb (it_type current) "SEPARATOR"),
               (String.eqb (it_type current) "OPERATOR"),
               (String.eqb (it_type current) "MENU"),
               (String.eqb (it_type current) "PROPERTY"); simpl.
      all: eexists; repeat split; [rewrite <- ?app_assoc; reflexivity | reflexivity].
    + eexists; repeat split; [rewrite <- ?app_assoc; reflexivity | reflexivity].
  - eexists; repeat split; [rewrite <- ?app_assoc; reflexivity | reflexivity].
Qed.

(** ** The keymap lookup *)


Lemma find_none {A} (f : A → bool) l :
  Forall (λ y, f y = false) l → find f l = None.
Proof. induction 1 as [|y l Hy Hl IH]; simpl; [done|]. by rewrite Hy. Qed.

Lemma find_over_app {A} (f : A → bool) l1 l2 :
  find f (l1 ++ l2) = match find f l1 with Some x => Some x | None => find f l2 end.
Proof. induction l1 as [|y l1 IH]; simpl; [done|]. by destruct (f y). Qed.

Section Lookup.
Context `{HostAPI}.

Lemma find_in_keymap_items_find idname items :
  find_in_keymap_items idname items = find (calls_user_menu idname) items.
Proof.
  induction items as [|kmi items IH]; simpl; [done|].
  unfold calls_user_menu at 1. by rewrite IH.
Qed.

Lemma find_in_keymaps_find idname kms :
  find_in_keymaps idname kms = find (calls_user_menu idname) (flat_map keymap_items kms).
Proof.
  induction kms as [|km kms IH]; simpl; [done|].
  by rewrite find_over_app, find_in_keymap_items_find, IH.
Qed.

Lemma keymap_named_lookup name kms :
  ∀ i0 i km, keymap_named name i0 kms = Some (i, km) →
    (i0 ≤ i)%nat ∧ kms !! (i - i0)%nat = Some km ∧ km_name km = name.
Proof.
  induction kms as [|km' kms IH]; intros i0 i km; simpl; [done|].
  destruct (String.eqb (km_name km') name) eqn:Hname.
  - intros [= <- <-]. apply String.eqb_eq in Hname.
    rewrite Nat.sub_diag. by repeat split.
  - intros Hfind. destruct (IH _ _ _ Hfind) as (Hle & Hlook & Hkm).
    repeat split; [lia | | done].
    replace (i - i0)%nat with (S (i - S i0)) by lia. exact Hlook.
Qed.

Lemma resolved_idname_run idname s target :
  resolved_idname idname (user_menus_of (ctx s)) = Some target →
  (if falsy idname then attr_of (active_group (user_menus_of (ctx s))) g_idname
   else ret (default "" idname)) s = (Ok target, s).
Proof.
  unfold resolved_idname. destruct (falsy idname).
  - destruct (active_group _) as [g|]; [|done]. by intros [= <-].
  - by intros ->.
Qed.

End Lookup.



(** ** The properties on the small host *)

(** C1, counterexample: drawing the button of an item that is not the
    active one clears its [is_selected] flag, and [get_keymap] with [ensure]
    adds an item to the 'Window' keymap. *)
Lemma drawing_writes_host_state :
  let s := demo_state (Some quick_favorites) (Some cut_item) in
  is_selected (ctx s) !! 2%nat = Some true
  ∧ is_selected (ctx (draw_button 0%nat rule_item (-1) s).2) !! 2%nat = Some false
  ∧ keymaps (ctx s) !! 1%nat = Some (Keymap "Window" [demo_kmi])
  ∧ (keymap_items <$> keymaps (ctx (@get_keymap demo_api None true s).2) !! 1%nat)
    = Some [demo_kmi;
            KeymapItem 2 "wm.call_user_menu" (OpProperties "" "quick_favorites") true
              "KEYBOARD" "NONE" "ANY" false false false false false false "NONE"].
Proof. repeat split. Qed.



(** C5, counterexample: the active group is unset and [um.menus] is empty;
    [draw_user_menus] raises IndexError, draws nothing, and the active group
    is still unset. *)
Lemma no_default_group_without_menus :
  active_group (user_menus_of (ctx groupless_state)) = None
  ∧ @draw_user_menus demo_api 0%nat groupless_state = (Raise IndexError, groupless_state)
  ∧ active_group
      (user_menus_of (ctx (@draw_user_menus demo_api 0%nat groupless_state).2)) = None.
Proof. repeat split. Qed.

Lemma active_group_defaults_to_first_menu_witness :
  let s := demo_state None None in
  active_group (user_menus_of (ctx s)) = None
  ∧ active_group (user_menus_of (ctx (@draw_user_menus demo_api 0%nat s).2))
    = Some quick_favorites.
Proof.
  split; [reflexivity|].
  apply (proj1 (active_group_defaults_to_first_menu demo_api 0%nat (demo_state None None))
           quick_favorites [full_pie; short_pie]); reflexivity.
Defined.


Lemma draw_item_sets_selection_witness :
  let s := demo_state (Some quick_favorites) (Some cut_item) in
  let s' := (draw_item 0%nat [cut_item; rule_item; more_item] s).2 in
  is_selected (ctx s) !! 2%nat = Some true
  ∧ is_selected (ctx s') !! 1%nat = Some true
  ∧ is_selected (ctx s') !! 2%nat = Some false
  ∧ is_selected (ctx s') !! 5%nat = Some false.
Proof.
  pose proof (proj1 (draw_item_sets_selection
                       (demo_state (Some quick_favorites) (Some cut_item)))
                0%nat [cut_item; rule_item; more_item]) as [_ Hflags].
  specialize (Hflags eq_refl).
  split; [reflexivity|]. split; [|split].
  - apply (Hflags cut_item). vm_compute. repeat constructor.
  - apply (Hflags rule_item). vm_compute. repeat constructor.
  - apply (Hflags snap_item). vm_compute. repeat constructor.
Defined.

(** The editor on the five type tags. *)
Example editor_on_separator :
  editor_widgets rule_item = [w_prop (ref_item 2) "type"].
Proof. reflexivity. Qed.

Example editor_on_operator :
  editor_widgets cut_item
  = [w_prop (ref_item 1) "type"; w_prop (ref_item 1) "icon"; w_prop (ref_item 1) "name";
     w_prop (ref_operator 1) "operator"; w_template (ref_operator 1)].
Proof. reflexivity. Qed.

Example editor_on_menu :
  editor_widgets view_item
  = [w_prop (ref_item 4) "type"; w_prop (ref_item 4) "icon"; w_prop (ref_item 4) "name";
     w_prop (ref_menu 4) "id_name"].
Proof. reflexivity. Qed.

Example editor_on_property :
  editor_widgets snap_item
  = [w_prop (ref_item 5) "type"; w_prop (ref_item 5) "icon"; w_prop (ref_item 5) "name";
     w_prop (ref_property 5) "id_name"; w_prop (ref_property 5) "context"].
Proof. reflexivity. Qed.

Example editor_on_submenu :
  editor_widgets more_item
  = [w_prop (ref_item 3) "type"; w_prop (ref_item 3) "icon"; w_prop (ref_item 3) "name"].
Proof. reflexivity. Qed.

(** The whole panel on the small host: the calls made for a list group. *)
Example panel_widgets_for_a_list :
  widgets (drawn (@draw_item_box demo_api 0%nat
                    (demo_state (Some quick_favorites) (Some cut_item))).2)
  = [w_prop (ref_item 1) "is_selected"; w_prop (ref_item 2) "is_selected";
     w_prop (ref_item 3) "is_selected"; w_prop (ref_item 4) "is_selected";
     w_prop (ref_item 5) "is_selected";
     w_operator "preferences.menuitem_add"; w_operator "preferences.menuitem_remove";
     w_operator "preferences.menuitem_up"; w_operator "preferences.menuitem_down";
     w_separator].
Proof. reflexivity. Qed.

(** * Further properties *)

(** ** [menu_id] *)

Lemma menu_id_from_spec umg l :
  ∀ i0,
    (menu_id_from i0 umg l = -1 ∧ Forall (λ g, g_id g ≠ g_id umg) l)
    ∨ (∃ k g, menu_id_from i0 umg l = i0 + Z.of_nat k
              ∧ l !! k = Some g ∧ g_id g = g_id umg
              ∧ Forall (λ g', g_id g' ≠ g_id umg) (take k l)).
Proof.
  induction l as [|item l IH]; intros i0; simpl.
  - left. by split.
  - destruct (Nat.eqb (g_id item) (g_id umg)) eqn:Hid.
    + right. exists 0%nat, item. apply Nat.eqb_eq in Hid.
      repeat split; [lia | done | constructor].
    + apply Nat.eqb_neq in Hid.
      destruct (IH (i0 + 1)) as [[Hr Hall] | (k & g & Hr & Hk & Hg & Hall)].
      * left. split; [done|]. by constructor.
      * right. exists (S k), g. repeat split; [lia | done | done |].
        simpl. by constructor.
Qed.

(** X1: [menu_id] never fails and writes nothing.  It returns [-1] exactly
    when no element of [um.menus] is the group [umg]; otherwise it returns
    the position of the first element that is [umg], a number from [0] to
    [len(um.menus) - 1]. *)
Theorem menu_id_first_position (umg : menu_group) (s : state) :
  ∃ r,
    menu_id umg s = (Ok r, s)
    ∧ ((r = -1 ∧ Forall (λ g, g_id g ≠ g_id umg) (menus (user_menus_of (ctx s))))
       ∨ (0 ≤ r < Z.of_nat (length (menus (user_menus_of (ctx s))))
          ∧ ∃ g, menus (user_menus_of (ctx s)) !! Z.to_nat r = Some g
                 ∧ g_id g = g_id umg
                 ∧ Forall (λ g', g_id g' ≠ g_id umg)
                     (take (Z.to_nat r) (menus (user_menus_of (ctx s)))))).
Proof.
  eexists. split; [reflexivity|].
  destruct (menu_id_from_spec umg (menus (user_menus_of (ctx s))) 0)
    as [[Hr Hall] | (k & g & Hr & Hk & Hg & Hall)].
  - left. by split.
  - right. rewrite Hr, Z.add_0_l, Nat2Z.id. split.
    + apply lookup_lt_Some in Hk. lia.
    + by exists g.
Qed.

(** X2: when the groups of [um.menus] are pairwise distinct, [menu_id] of
    the group at position [k] is [k]. *)
Theorem menu_id_of_member (s : state) (k : nat) (g : menu_group) :
  NoDup (g_id <$> menus (user_menus_of (ctx s))) →
  menus (user_menus_of (ctx s)) !! k = Some g →
  menu_id g s = (Ok (Z.of_nat k), s).
Proof.
  intros Hnodup Hk. unfold menu_id, bind, gets, ret. simpl. do 2 f_equal.
  destruct (menu_id_from_spec g (menus (user_menus_of (ctx s))) 0)
    as [[Hr Hall] | (k' & g' & Hr & Hk' & Hg' & Hall)].
  - exfalso. rewrite Forall_forall in Hall.
    apply (Hall g); [|done]. by apply list_elem_of_lookup_2 in Hk.
  - rewrite Hr, Z.add_0_l. f_equal.
    apply (NoDup_lookup _ _ _ (g_id g) Hnodup).
    + rewrite list_lookup_fmap, Hk'. simpl. by rewrite Hg'.
    + by rewrite list_lookup_fmap, Hk.
Qed.

Lemma menu_id_of_member_witness :
  menu_id short_pie (demo_state (Some quick_favorites) None) =
  (Ok 2, demo_state (Some quick_favorites) None).
Proof.
  apply (menu_id_of_member (demo_state (Some quick_favorites) None) 2 short_pie).
  - apply (bool_decide_unpack _). vm_compute. exact I.
  - reflexivity.
Defined.

(** ** More on [get_keymap] *)

Lemma keymap_named_none name kms :
  Forall (λ km, km_name km ≠ name) kms → ∀ i, keymap_named name i kms = None.
Proof.
  induction 1 as [|km kms Hkm Hkms IH]; intros i; simpl; [done|].
  apply String.eqb_neq in Hkm. rewrite Hkm. apply IH.
Qed.

Section KeymapEdges.
Context `{HostAPI}.

(** After the idname is resolved, [get_keymap] is the search followed by
    the [ensure] branch. *)
Lemma get_keymap_resolved idname ensure s target :
  resolved_idname idname (user_menus_of (ctx s)) = Some target →
  get_keymap idname ensure s
  = match find (calls_user_menu target) (flat_map keymap_items (keymaps (ctx s))) with
    | Some kmi => (Ok (Some kmi), s)
    | None =>
        if ensure then
          match keymap_named "Window" 0 (keymaps (ctx s)) with
          | None => (Raise KeyError, s)
          | Some (i, km) =>
              let kmi := set_active true
                           (set_properties_idname target
                              (keymap_items_new km "wm.call_user_menu" "NONE" "ANY"
                                 false false false)) in
              (Ok (Some kmi),
               State (set_keymaps
                        (<[i := Keymap (km_name km) (keymap_items km ++ [kmi])]>
                           (keymaps (ctx s)))
                        (ctx s))
                 (fresh s) (drawn s))
          end
        else (Ok None, s)
    end.
Proof.
  intros Hres.
  unfold get_keymap, bind at 1. simpl. unfold bind at 1.
  rewrite (resolved_idname_run _ _ _ Hres). unfold bind at 1. simpl.
  rewrite find_in_keymaps_find.
  destruct (find _ _); [done|]. destruct ensure; [|done].
  by destruct (keymap_named _ _ _) as [[i km]|].
Qed.

Lemma get_keymap_unresolved idname ensure s :
  resolved_idname idname (user_menus_of (ctx s)) = None →
  get_keymap idname ensure s = (Raise AttributeError, s).
Proof.
  unfold resolved_idname. intros Hres.
  unfold get_keymap, bind at 1. simpl. unfold bind at 1.
  destruct (falsy idname) eqn:Hf.
  - destruct (active_group _); [done|]. reflexivity.
  - destruct idname; [done|]. by simpl in Hf.
Qed.

End KeymapEdges.

(** X3: [get_keymap] raises in two cases, and writes nothing when it does.
    With an empty or [None] idname and no active group it raises
    AttributeError; with [ensure], no matching item and no keymap named
    'Window' it raises KeyError. *)
Theorem get_keymap_raises (api : HostAPI) (idname : option string) (ensure : bool)
    (s : state) :
  (falsy idname = true → active_group (user_menus_of (ctx s)) = None →
     get_keymap idname ensure s = (Raise AttributeError, s))
  ∧ (∀ target,
       resolved_idname idname (user_menus_of (ctx s)) = Some target →
       Forall (λ k, calls_user_menu target k = false)
         (flat_map keymap_items (keymaps (ctx s))) →
       Forall (λ km, km_name km ≠ "Window") (keymaps (ctx s)) →
       get_keymap idname true s = (Raise KeyError, s)).
Proof.
  split.
  - intros Hf Hg. apply get_keymap_unresolved.
    unfold resolved_idname. by rewrite Hf, Hg.
  - intros target Hres Hnone Hwin.
    rewrite (get_keymap_resolved _ _ _ target) by done.
    by rewrite find_none, keymap_named_none.
Qed.

Lemma get_keymap_raises_witness :
  @get_keymap demo_api (Some "other") true windowless_state
  = (Raise KeyError, windowless_state).
Proof.
  apply (proj2 (get_keymap_raises demo_api (Some "other") true windowless_state) "other").
  - reflexivity.
  - repeat constructor.
  - repeat constructor; discriminate.
Defined.

(** X4: [get_keymap] never removes, reorders or edits a keymap item.  It
    leaves the state as it is, or it appends one item to the end of one
    keymap, named 'Window', the item it returns; everything else, the
    other keymaps included, is as before. *)
Theorem get_keymap_only_appends (api : HostAPI) (idname : option string)
    (ensure : bool) (s : state) :
  (get_keymap idname ensure s).2 = s
  ∨ ∃ i km kmi,
      ensure = true
      ∧ keymaps (ctx s) !! i = Some km ∧ km_name km = "Window"
      ∧ (get_keymap idname ensure s).1 = Ok (Some kmi)
      ∧ (get_keymap idname ensure s).2
        = State (Host (user_menus_of (ctx s))
                      (<[i := Keymap "Window" (keymap_items km ++ [kmi])]> (keymaps (ctx s)))
                      (is_selected (ctx s)))
            (fresh s) (drawn s).
Proof.
  destruct (resolved_idname idname (user_menus_of (ctx s))) as [target|] eqn:Hres.
  - rewrite (get_keymap_resolved _ _ _ target) by done.
    destruct (find _ _); [by left|].
    destruct ensure; [|by left].
    destruct (keymap_named _ _ _) as [[i km]|] eqn:Hwin; [|by left].
    destruct (keymap_named_lookup _ _ _ _ _ Hwin) as (_ & Hlook & Hname).
    rewrite Nat.sub_0_r in Hlook.
    right. eexists i, km, _. rewrite Hname. by repeat split.
  - left. by rewrite get_keymap_unresolved.
Qed.

(** X5: an item created by [get_keymap] with [ensure] is not found by the
    next lookup of the same idname, unless the host's new item already has
    [properties.name] equal to it: the search compares [properties.name],
    the creation sets [properties.idname]. *)
Theorem get_keymap_created_item_not_found (api : HostAPI) (idname : option string)
    (s : state) (target : string) (i : nat) (km : keymap) :
  resolved_idname idname (user_menus_of (ctx s)) = Some target →
  Forall (λ k, calls_user_menu target k = false)
    (flat_map keymap_items (keymaps (ctx s))) →
  keymap_named "Window" 0 (keymaps (ctx s)) = Some (i, km) →
  p_name (kmi_properties (blank_keymap_item km)) ≠ target →
  get_keymap idname false (get_keymap idname true s).2
  = (Ok None, (get_keymap idname true s).2).
Proof.
  intros Hres Hnone Hwin Hblank.
  rewrite (get_keymap_resolved _ true _ target) by done.
  rewrite find_none, Hwin by done. cbv zeta.
  rewrite (get_keymap_resolved _ false _ target) by done.
  rewrite find_none; [done|]. simpl.
  apply Forall_flat_map, Forall_insert.
  - by apply Forall_flat_map.
  - simpl. apply Forall_app. split.
    + apply Forall_flat_map in Hnone. rewrite Forall_forall in Hnone.
      destruct (keymap_named_lookup _ _ _ _ _ Hwin) as (_ & Hlook & _).
      rewrite Nat.sub_0_r in Hlook. apply Hnone.
      by apply list_elem_of_lookup_2 in Hlook.
    + repeat constructor. unfold calls_user_menu. simpl.
      by apply String.eqb_neq.
Qed.

Lemma get_keymap_created_item_not_found_witness :
  let s := demo_state (Some quick_favorites) None in
  @get_keymap demo_api None false (@get_keymap demo_api None true s).2
  = (Ok None, (@get_keymap demo_api None true s).2).
Proof.
  apply (get_keymap_created_item_not_found demo_api None
           (demo_state (Some quick_favorites) None) "quick_favorites" 1
           (Keymap "Window" [demo_kmi])).
  - reflexivity.
  - repeat constructor.
  - reflexivity.
  - discriminate.
Defined.

(** ** What the log of calls contains *)

Global Instance log_all_preorder (P : ui_call → Prop) : PreOrder (log_all P).
Proof.
  split.
  - intros s. exists []. by rewrite app_nil_r.
  - intros s1 s2 s3 (d1 & Hd1 & HP1) (d2 & Hd2 & HP2).
    exists (d1 ++ d2). split.
    + by rewrite Hd2, Hd1, app_assoc.
    + by apply Forall_app.
Qed.

Lemma emit_log_all (P : ui_call → Prop) c : P c → always (log_all P) (emit c).
Proof. intros HP s. exists [c]. split; [done|]. by constructor. Qed.

Lemma new_layout_log_all (P : ui_call → Prop) kind parent kw :
  (∀ child, P (sub_layout kind parent child kw)) →
  always (log_all P) (new_layout kind parent kw).
Proof. intros HP s. exists [sub_layout kind parent (fresh s) kw]. split; [done|]. by constructor. Qed.

Lemma modify_log_all (P : ui_call → Prop) f : always (log_all P) (modify f).
Proof. intros s. exists []. simpl. by rewrite app_nil_r. Qed.

(** One step of a proof about the log; [tac] settles what is asked of a
    single call. *)
Ltac log_step tac :=
  match goal with
  | |- always _ (bind _ _) => apply always_bind; [apply _ | | intros ?]
  | |- always _ (if ?b then _ else _) => destruct b eqn:?
  | |- always _ (match ?o with Some _ => _ | None => _ end) => destruct o
  | |- always _ (let _ := _ in _) => cbv zeta
  | |- always (log_all _) (emit _) => apply emit_log_all; tac
  | |- always (log_all _) (new_layout _ _ _) => apply new_layout_log_all; intros ?; tac
  | |- always (log_all _) (modify _) => apply modify_log_all
  | |- always (log_all _) (ret _) => apply always_ret, _
  | |- always (log_all _) (raise _) => apply always_raise, _
  | |- always (log_all _) (gets _) => apply always_gets, _
  | |- always (log_all _) (attr_of _ _) => apply always_attr_of, _
  | |- always (log_all _) (index_of _ _) => apply always_index_of, _
  end.

Lemma log_all_mono (P Q : ui_call → Prop) :
  (∀ c, P c → Q c) → ∀ s s', log_all P s s' → log_all Q s s'.
Proof.
  intros HPQ s s' (delta & Hdelta & HP). exists delta. split; [done|].
  eapply Forall_impl; [exact HP | exact HPQ].
Qed.

Lemma reached_from_member (l : list menu_item) child item :
  child ∈ l → item ∈ reached_from child → item ∈ flat_map reached_from l.
Proof.
  intros Hchild Hitem. apply list_elem_of_In, in_flat_map.
  exists child. split; by apply list_elem_of_In.
Qed.

(** X8: whatever the outcome, every selection button drawn by [draw_button]
    and [draw_item] is the button of an item reached from the argument and
    carries that item's label: the rule for a SEPARATOR (whatever its
    name), one blank for another item whose name is empty, the item's name
    otherwise; so the text is never the empty string. *)
Theorem buttons_have_text (s : state) :
  (∀ box item index,
     log_all (λ c, ∀ id, button_of c = Some id →
                   ∃ item', item' ∈ reached_from item ∧ it_id item' = id
                            ∧ button_text c = Some (button_label item')
                            ∧ button_label item' ≠ "")
       s (draw_button box item index s).2)
  ∧ (∀ box items,
     log_all (λ c, ∀ id, button_of c = Some id →
                   ∃ item', item' ∈ reached items ∧ it_id item' = id
                            ∧ button_text c = Some (button_label item')
                            ∧ button_label item' ≠ "")
       s (draw_item box items s).2).
Proof.
  assert (Hbutton : ∀ item box index,
            always (log_all (λ c, ∀ id, button_of c = Some id →
                                  ∃ item', item' ∈ reached_from item ∧ it_id item' = id
                                           ∧ button_text c = Some (button_label item')
                                           ∧ button_label item' ≠ ""))
              (draw_button box item index)).
  { induction item as [id name icon type | id name icon type l IH]
      using menu_item_nested_ind; intros box index; simpl.
    all: destruct (String.eqb name "") eqn:Hname;
         destruct (String.eqb type "SEPARATOR") eqn:Hsep.
    all: repeat log_step ltac:(first
           [ by intros ? [=]
           | intros ? [= <-]; eexists; split; [apply list_elem_of_here|];
             split; [reflexivity|];
             unfold button_label; simpl; rewrite Hname, Hsep;
             split; [reflexivity|];
             first [discriminate | by apply String.eqb_neq] ]).
    all: unfold draw_item_with; apply always_for_each; [apply _|].
    all: rewrite Forall_forall in IH |- *; intros child Hchild.
    all: eapply always_weaken; [|apply (IH child Hchild)].
    all: apply log_all_mono; intros c Hc id' Hid.
    all: destruct (Hc id' Hid) as (item' & Hin & Hrest).
    all: exists item'; split; [|done].
    all: apply list_elem_of_further; by apply (reached_from_member l child). }
  split.
  - intros box item index. apply Hbutton.
  - intros box items. unfold draw_item, draw_item_with.
    apply always_for_each; [apply _|]. apply Forall_forall. intros item Hitem.
    eapply always_weaken; [|apply Hbutton].
    apply log_all_mono. intros c Hc id Hid.
    destruct (Hc id Hid) as (item' & Hin & Hrest).
    exists item'. split; [|done]. by apply (reached_from_member items item).
Qed.

Lemma buttons_have_text_witness :
  let s := demo_state (Some quick_favorites) (Some cut_item) in
  ∃ delta,
    drawn (draw_item 0%nat [rule_item; cut_item] s).2 = drawn s ++ delta
    ∧ omap button_text delta = ["___________"; "Cut"]
    ∧ Forall (λ c, ∀ id, button_of c = Some id →
                   ∃ item', item' ∈ reached [rule_item; cut_item] ∧ it_id item' = id
                            ∧ button_text c = Some (button_label item')
                            ∧ button_label item' ≠ "") delta.
Proof.
  destruct (proj2 (buttons_have_text (demo_state (Some quick_favorites) (Some cut_item)))
              0%nat [rule_item; cut_item]) as (delta & Hdelta & Hall).
  exists delta. split; [exact Hdelta|]. split; [|exact Hall].
  apply (app_inv_head (drawn (demo_state (Some quick_favorites) (Some cut_item)))) in Hdelta.
  by rewrite <- Hdelta.
Defined.

(** X11: [draw_item] shows no operator button, whatever the outcome: the
    add, remove, up and down buttons of a pie entry are drawn by
    [draw_button] for the entry it is called on with a pie index, never for
    the items of a submenu. *)
Theorem draw_item_shows_no_operator (box : layout) (items : list menu_item) (s : state) :
  log_all (λ c, operator_of c = None) s (draw_item box items s).2.
Proof.
  assert (Hbutton : ∀ item box,
            always (log_all (λ c, operator_of c = None)) (draw_button box item (-1))).
  { induction item as [id name icon type | id name icon type l IH]
      using menu_item_nested_ind; intros box'; simpl.
    all: change (Z.leb 0 (-1)) with false.
    all: repeat first
           [ match goal with
             | |- always _ (if ?b && false then _ else _) => rewrite (andb_false_r b)
             end
           | log_step ltac:(done) ].
    unfold draw_item_with. apply always_for_each; [apply _|].
    eapply Forall_impl; [exact IH|]. intros item Hitem. apply Hitem. }
  unfold draw_item, draw_item_with.
  apply always_for_each; [apply _|]. apply Forall_forall. intros item _. apply Hbutton.
Qed.

(** ** The flags, exactly *)

Global Instance exact_selection_preorder : PreOrder exact_selection.
Proof.
  split.
  - intros s. exists []. rewrite app_nil_r. by repeat split.
  - intros s1 s2 s3 (d1 & Hd1 & Hum1 & Hkm1 & Hf1) (d2 & Hd2 & Hum2 & Hkm2 & Hf2).
    exists (d1 ++ d2). rewrite Hum1 in *. repeat split.
    + by rewrite Hd2, Hd1, app_assoc.
    + congruence.
    + congruence.
    + intros id. rewrite Hf2, Hf1. unfold buttons. rewrite omap_app.
      repeat case_bool_decide; try done.
      all: exfalso;
        match goal with
        | Happ : context [_ ∈ _ ++ _] |- _ => rewrite elem_of_app in Happ; tauto
        end.
Qed.

Lemma emit_exact c : button_of c = None → always exact_selection (emit c).
Proof.
  intros Hc s. exists [c]. unfold buttons. simpl. rewrite Hc. by repeat split.
Qed.

Lemma new_layout_exact kind parent kw : always exact_selection (new_layout kind parent kw).
Proof. intros s. exists [sub_layout kind parent (fresh s) kw]. by repeat split. Qed.

(** The first statements of [draw_button], up to the selection button. *)
Lemma button_exact s id box kw :
  let col := fresh s in
  let row := S (fresh s) in
  exact_selection s
    (State (set_is_selected id (is_active id (user_menus_of (ctx s))) (ctx s))
       (S (S (fresh s)))
       (((drawn s ++ [sub_layout "column" box col [("align", ABool true)]])
         ++ [sub_layout "row" col row [("align", ABool true)]])
        ++ [prop row (ref_item id) "is_selected" kw])).
Proof.
  intros col row.
  exists [sub_layout "column" box col [("align", ABool true)];
          sub_layout "row" col row [("align", ABool true)];
          prop row (ref_item id) "is_selected" kw].
  simpl. repeat split.
  - by rewrite <- !app_assoc.
  - intros id'. case_bool_decide as Hid.
    + apply list_elem_of_singleton in Hid as ->. apply lookup_insert_eq.
    + apply lookup_insert_ne. intros ->. apply Hid. by apply list_elem_of_singleton.
Qed.

#[global] Hint Resolve new_layout_exact : frame.
#[global] Hint Extern 1 (always exact_selection (emit _)) =>
  apply emit_exact; reflexivity : frame.

Section ExactSelection.
Context `{HostAPI}.

Lemma draw_button_exact item :
  ∀ box index, always exact_selection (draw_button box item index).
Proof.
  induction item as [id name icon type | id name icon type l IH] using menu_item_nested_ind;
    intros box index s; simpl; do 5 (unfold bind at 1; simpl).
  all: match goal with
       | |- exact_selection ?s0 (?k ?s1).2 =>
           transitivity s1; [apply button_exact|]; generalize s1
       end.
  all: match goal with
       | |- ∀ s1, exact_selection s1 (?k s1).2 => change (always exact_selection k)
       end.
  - frame.
  - frame.
    all: unfold draw_item_with; apply always_for_each; [apply _|].
    all: eapply Forall_impl; [exact IH|]; intros item Hitem; apply Hitem.
Qed.

Lemma draw_item_exact box items : always exact_selection (draw_item box items).
Proof.
  unfold draw_item, draw_item_with. apply always_for_each; [apply _|].
  apply Forall_forall. intros item _. apply draw_button_exact.
Qed.

Lemma get_keymap_draws_nothing idname ensure s :
  drawn (get_keymap idname ensure s).2 = drawn s.
Proof.
  destruct (resolved_idname idname (user_menus_of (ctx s))) as [target|] eqn:Hres.
  - rewrite (get_keymap_resolved _ _ _ target) by done.
    destruct (find _ _); [done|]. destruct ensure; [|done].
    by destruct (keymap_named _ _ _) as [[i km]|].
  - by rewrite get_keymap_unresolved.
Qed.

Lemma get_keymap_exact idname : always exact_selection (get_keymap idname false).
Proof.
  intros s. exists []. rewrite app_nil_r.
  rewrite get_keymap_draws_nothing, (get_keymap_reads_only idname s).
  by repeat split.
Qed.

#[local] Hint Resolve draw_button_exact draw_item_exact get_keymap_exact : frame.

Lemma draw_item_box_exact row : always exact_selection (draw_item_box row).
Proof. unfold draw_item_box. frame. Qed.

Lemma draw_pie_exact row : always exact_selection (draw_pie row).
Proof. unfold draw_pie, draw_pie_line, draw_pie_item. frame. Qed.

Lemma draw_item_editor_exact row : always exact_selection (draw_item_editor row).
Proof. unfold draw_item_editor. frame. Qed.

Lemma draw_user_menu_preference_exact layout_ :
  always exact_selection (draw_user_menu_preference layout_).
Proof.
  unfold draw_user_menu_preference, draw_user_menu_preference_expanded. frame.
Qed.

#[local] Hint Resolve draw_item_box_exact draw_pie_exact draw_item_editor_exact
  draw_user_menu_preference_exact : frame.

Lemma draw_user_menus_body_exact layout_ :
  always exact_selection (draw_user_menus_body layout_).
Proof. unfold draw_user_menus_body. frame. Qed.

End ExactSelection.

(** ** What a completed run has drawn *)

Section Draws.
Context {X : Type} (pick : ui_call → option X) (um : user_menus).

Lemma draws_conv {A} (m : M A) L L' : draws pick um m L → L = L' → draws pick um m L'.
Proof. by intros Hm <-. Qed.

Lemma draws_raise {A} e L : draws pick um (raise (A := A) e) L.
Proof. by intros s a _ Hok. Qed.

Lemma omap_nothing (l : list ui_call) :
  Forall (λ c, pick c = None) l → omap pick l = [].
Proof. induction 1 as [|c l Hc _ IH]; simpl; [done|]. by rewrite Hc. Qed.

(** A step that makes no call of the kind and keeps the user menus. *)
Lemma draws_quiet {A} (m : M A) :
  always (log_all (λ c, pick c = None)) m →
  always same_but_selection m →
  draws pick um m [].
Proof.
  intros Hlog Hframe s a Hum _.
  destruct (Hframe s) as [Hum' _]. destruct (Hlog s) as (delta & Hdelta & Hnone).
  split; [congruence|]. exists delta. split; [done|]. by apply omap_nothing.
Qed.

Lemma draws_bind {A B} (m : M A) (f : A → M B) L1 L2 :
  draws pick um m L1 → (∀ a, draws pick um (f a) L2) →
  draws pick um (bind m f) (L1 ++ L2).
Proof.
  intros Hm Hf s b Hum Hok.
  destruct (bind_ok_inv _ _ _ _ Hok) as (a & Ha & Heq).
  destruct (Hm s a Hum Ha) as (Hum1 & d1 & Hd1 & HL1).
  rewrite Heq in Hok |- *.
  destruct (Hf a _ b Hum1 Hok) as (Hum2 & d2 & Hd2 & HL2).
  split; [done|]. exists (d1 ++ d2). split.
  - by rewrite Hd2, Hd1, app_assoc.
  - by rewrite omap_app, HL1, HL2.
Qed.

Lemma draws_skip {A B} (m : M A) (f : A → M B) L :
  always (log_all (λ c, pick c = None)) m →
  always same_but_selection m →
  (∀ a, draws pick um (f a) L) →
  draws pick um (bind m f) L.
Proof.
  intros Hlog Hframe Hf. apply (draws_bind m f [] L); [|done].
  by apply draws_quiet.
Qed.

(** [l[i]], with the element it gives. *)
Lemma draws_index_of {A B} (l : list A) i (f : A → M B) L :
  (∀ a, l !! i = Some a → draws pick um (f a) L) →
  draws pick um (bind (index_of l i) f) L.
Proof.
  intros Hf. unfold index_of. destruct (l !! i) as [a|] eqn:Hl.
  - intros s b Hum Hok. by apply (Hf a eq_refl s b).
  - by intros s b Hum Hok.
Qed.

Lemma draws_emit c x : pick c = Some x → draws pick um (emit c) [x].
Proof.
  intros Hc s a Hum _. split; [done|]. exists [c]. split; [done|].
  simpl. by rewrite Hc.
Qed.

Lemma draws_for_each {A} (body : A → M unit) (g : A → list X) l :
  Forall (λ x, draws pick um (body x) (g x)) l →
  draws pick um (for_each body l) (flat_map g l).
Proof.
  induction 1 as [|x l Hx Hl IH]; simpl.
  - apply draws_quiet; [apply always_ret, _ | apply always_ret, _].
  - by apply draws_bind.
Qed.

End Draws.

(** A step that draws nothing of the kind: the side conditions by the log
    and the frame tactics. *)
Ltac draws_skip_step :=
  apply draws_skip;
  [ solve [repeat log_step ltac:(reflexivity)] | solve [frame] | intros ? ].

Section Buttons.
Context `{HostAPI} (um : user_menus).

Lemma draw_button_draws item :
  ∀ box index,
    draws button_of um (draw_button box item index) (it_id <$> reached_from item).
Proof.
  induction item as [id name icon type | id name icon type l IH] using menu_item_nested_ind;
    intros box index; simpl.
  all: do 4 draws_skip_step.
  all: apply (draws_bind _ _ _ _ [id]); [by apply draws_emit|]; intros _.
  all: destruct (String.eqb type "SUBMENU"); simpl;
    [|apply draws_quiet; [apply always_ret, _ | apply always_ret, _]].
  all: do 4 draws_skip_step.
  - apply draws_raise.
  - eapply draws_conv.
    + unfold draw_item_with.
      apply (draws_for_each _ _ _ (λ item, it_id <$> reached_from item)).
      eapply Forall_impl; [exact IH|]. intros item Hitem. apply Hitem.
    + apply flat_map_ids.
Qed.

Lemma draw_item_draws box items :
  draws button_of um (draw_item box items) (it_id <$> reached items).
Proof.
  eapply draws_conv.
  - unfold draw_item, draw_item_with.
    apply (draws_for_each _ _ _ (λ item, it_id <$> reached_from item)).
    apply Forall_forall. intros item _. apply draw_button_draws.
  - apply flat_map_ids.
Qed.

End Buttons.

(** X9: a run of [draw_item] that completes has drawn one selection button
    for every item reached from the list, in this order: each item, then
    the items of its submenu when its type is SUBMENU, then the next item. *)
Theorem draw_item_buttons_in_order (box : layout) (items : list menu_item) (s : state) :
  (draw_item box items s).1 = Ok tt →
  ∃ delta,
    drawn (draw_item box items s).2 = drawn s ++ delta
    ∧ buttons delta = it_id <$> reached items.
Proof.
  intros Hok.
  by destruct (draw_item_draws (user_menus_of (ctx s)) box items s tt eq_refl Hok)
    as [_ Hdelta].
Qed.

Lemma draw_item_buttons_in_order_witness :
  let s := demo_state (Some quick_favorites) (Some cut_item) in
  ∃ delta,
    drawn (draw_item 0%nat [cut_item; more_item; rule_item] s).2 = drawn s ++ delta
    ∧ buttons delta = [1; 3; 4; 5; 2]%nat.
Proof.
  apply (draw_item_buttons_in_order 0%nat [cut_item; more_item; rule_item]
           (demo_state (Some quick_favorites) (Some cut_item))).
  reflexivity.
Defined.

(** X10: whatever the outcome of [draw_button] or [draw_item], the flag of
    an item whose button was drawn holds [item == um.active_item], and the
    flag of every other item is what it was; the user menus and the keymaps
    are untouched. *)
Theorem undrawn_items_keep_their_flag (s : state) :
  (∀ box item index, exact_selection s (draw_button box item index s).2)
  ∧ (∀ box items, exact_selection s (draw_item box items s).2).
Proof.
  split.
  - intros box item index. apply draw_button_exact.
  - intros box items. apply draw_item_exact.
Qed.

Section DrawsMore.
Context {X : Type} (pick : ui_call → option X) (um : user_menus).

(** [um = prefs.user_menus], with the value it gives. *)
Lemma draws_user_menus {B} (f : user_menus → M B) L :
  draws pick um (f um) L → draws pick um (bind (gets user_menus_of) f) L.
Proof.
  intros Hf s b Hum Hok. unfold bind, gets in *. simpl in *. rewrite Hum in *.
  by apply (Hf s b).
Qed.

(** [o.attr], with the object it is read from. *)
Lemma draws_attr_of {A B C} (o : option A) (g : A → B) (f : B → M C) L :
  (∀ a, o = Some a → draws pick um (f (g a)) L) →
  draws pick um (bind (attr_of o g) f) L.
Proof.
  intros Hf. destruct o as [a|]; simpl.
  - intros s b Hum Hok. by apply (Hf a eq_refl s b).
  - by intros s b Hum Hok.
Qed.

Lemma draws_ret_tt : draws pick um (ret tt) [].
Proof. apply draws_quiet; apply always_ret, _. Qed.

End DrawsMore.

Lemma get_keymap_log_all `{HostAPI} (P : ui_call → Prop) idname ensure :
  always (log_all P) (get_keymap idname ensure).
Proof. intros s. exists []. by rewrite app_nil_r, get_keymap_draws_nothing. Qed.

(** The same, for code that calls [get_keymap]. *)
Ltac log_steps tac :=
  repeat first [ log_step tac | apply get_keymap_log_all ].

Section PanelLog.
Context `{HostAPI}.

Lemma draw_button_no_label item :
  ∀ box index, always (log_all (λ c, label_text c = None)) (draw_button box item index).
Proof.
  induction item as [id name icon type | id name icon type l IH] using menu_item_nested_ind;
    intros box index; simpl; log_steps ltac:(reflexivity).
  all: unfold draw_item_with; apply always_for_each; [apply _|].
  all: eapply Forall_impl; [exact IH|]; intros item Hitem; apply Hitem.
Qed.

Lemma draw_user_menu_preference_no_button layout_ :
  always (log_all (λ c, button_of c = None)) (draw_user_menu_preference layout_).
Proof.
  unfold draw_user_menu_preference, draw_user_menu_preference_expanded.
  log_steps ltac:(reflexivity).
Qed.

Lemma draw_item_editor_no_button row :
  always (log_all (λ c, button_of c = None)) (draw_item_editor row).
Proof. unfold draw_item_editor. log_steps ltac:(reflexivity). Qed.

End PanelLog.

(** The first eight entries of a list, read one index at a time. *)
Lemma first_eight {A B} (g : A → list B) (l : list A) :
  from_option g [] (l !! 0%nat) ++ from_option g [] (l !! 1%nat)
  ++ from_option g [] (l !! 2%nat) ++ from_option g [] (l !! 3%nat)
  ++ from_option g [] (l !! 4%nat) ++ from_option g [] (l !! 5%nat)
  ++ from_option g [] (l !! 6%nat) ++ from_option g [] (l !! 7%nat) ++ []
  = flat_map g (take 8 l).
Proof.
  destruct l as [|i0 [|i1 [|i2 [|i3 [|i4 [|i5 [|i6 [|i7 more]]]]]]]]; simpl;
    rewrite ?take_0, ?app_nil_r; reflexivity.
Qed.

Section PanelButtons.
Context `{HostAPI} (um : user_menus).

Lemma draw_pie_line_draws_buttons col cm i label_ :
  draws button_of um (draw_pie_line col cm i label_)
    (from_option (λ item, it_id <$> reached_from item) [] (menu_items cm !! i)).
Proof.
  unfold draw_pie_line. apply draws_index_of. intros item ->. simpl.
  unfold draw_pie_item. do 2 draws_skip_step. apply draw_button_draws.
Qed.

Lemma draw_pie_line_draws_label col cm i label_ :
  draws label_text um (draw_pie_line col cm i label_) [label_].
Proof.
  unfold draw_pie_line. apply draws_index_of. intros item _.
  unfold draw_pie_item. draws_skip_step.
  apply (draws_bind _ _ _ _ [label_] []); [by apply draws_emit|]. intros _.
  apply draws_quiet; [apply draw_button_no_label | apply draw_button_frame].
Qed.

Lemma draw_pie_draws_buttons row :
  draws button_of um (draw_pie row)
    (match get_current_menu um with
     | Some cm => it_id <$> reached (take 8 (menu_items cm))
     | None => []
     end).
Proof.
  unfold draw_pie. apply draws_user_menus.
  destruct (get_current_menu um) as [cm|]; [|apply draws_ret_tt].
  draws_skip_step. eapply draws_conv.
  - do 8 (apply draws_bind; [apply draw_pie_line_draws_buttons|]; intros _).
    apply draws_quiet; [repeat log_step ltac:(reflexivity) | frame].
  - rewrite (first_eight (λ item, it_id <$> reached_from item)). apply flat_map_ids.
Qed.

Lemma draw_pie_draws_labels row cm :
  get_current_menu um = Some cm →
  draws label_text um (draw_pie row) pie_directions.
Proof.
  intros Hcm. unfold draw_pie. apply draws_user_menus. rewrite Hcm.
  draws_skip_step. eapply draws_conv.
  - do 8 (apply draws_bind; [apply draw_pie_line_draws_label|]; intros _).
    apply draws_quiet; [repeat log_step ltac:(reflexivity) | frame].
  - reflexivity.
Qed.

Lemma draw_item_box_draws row :
  draws button_of um (draw_item_box row)
    (if has_item um then
       match get_current_menu um with
       | Some cm => it_id <$> reached (menu_items cm)
       | None => []
       end
     else []).
Proof.
  unfold draw_item_box. apply draws_user_menus. do 2 draws_skip_step. cbv zeta.
  eapply draws_conv; [|apply app_nil_r].
  apply draws_bind.
  - destruct (has_item um); simpl.
    + apply draws_attr_of. intros cm Hcm. rewrite Hcm. apply draw_item_draws.
    + apply draws_quiet; [repeat log_step ltac:(reflexivity) | frame].
  - intros _. apply draws_quiet; [repeat log_step ltac:(reflexivity) | frame].
Qed.

Lemma draw_user_menus_body_draws layout_ :
  draws button_of um (draw_user_menus_body layout_) (panel_buttons _ um).
Proof.
  unfold draw_user_menus_body, panel_buttons.
  do 3 draws_skip_step. apply draws_user_menus.
  apply draws_attr_of. intros g Hg. rewrite Hg. do 9 draws_skip_step.
  apply draws_skip;
    [ apply draw_user_menu_preference_no_button
    | apply same_host_weaken, draw_user_menu_preference_same_host
    | intros _ ].
  do 2 draws_skip_step. apply draws_user_menus.
  apply draws_attr_of. intros g' Hg'. rewrite Hg in Hg'. injection Hg' as <-.
  destruct (String.eqb (g_type g) "PIE").
  all: eapply draws_conv; [|apply app_nil_r].
  all: apply draws_bind; [first [apply draw_pie_draws_buttons | apply draw_item_box_draws]|].
  all: intros _.
  all: apply draws_skip;
        [ apply draw_item_editor_no_button
        | apply same_host_weaken, draw_item_editor_same_host
        | intros _ ].
  all: apply draws_quiet; [repeat log_step ltac:(reflexivity) | frame].
Qed.

End PanelButtons.

(** X12: with no current menu [draw_pie] does nothing at all.  A run that
    completes on a current menu has drawn the eight direction labels in
    order and the buttons reached from the first eight entries of the menu,
    and no button of a later entry. *)
Theorem draw_pie_draws_first_eight (api : HostAPI) (row : layout) (s : state) :
  (get_current_menu (user_menus_of (ctx s)) = None → draw_pie row s = (Ok tt, s))
  ∧ (∀ cm, get_current_menu (user_menus_of (ctx s)) = Some cm →
       (draw_pie row s).1 = Ok tt →
       ∃ delta,
         drawn (draw_pie row s).2 = drawn s ++ delta
         ∧ omap label_text delta = pie_directions
         ∧ buttons delta = it_id <$> reached (take 8 (menu_items cm))).
Proof.
  split.
  - intros Hcm. unfold draw_pie, bind, gets. simpl. by rewrite Hcm.
  - intros cm Hcm Hok.
    destruct (draw_pie_draws_labels _ row cm Hcm s tt eq_refl Hok)
      as (_ & d1 & Hd1 & Hlabels).
    destruct (draw_pie_draws_buttons (user_menus_of (ctx s)) row s tt eq_refl Hok)
      as (_ & d2 & Hd2 & Hbuttons).
    rewrite Hcm in Hbuttons. rewrite Hd1 in Hd2. apply app_inv_head in Hd2 as <-.
    by exists d1.
Qed.

Lemma draw_pie_draws_first_eight_witness :
  let s := demo_state (Some full_pie) (Some cut_item) in
  ∃ delta,
    drawn (@draw_pie demo_api 0%nat s).2 = drawn s ++ delta
    ∧ omap label_text delta = pie_directions
    ∧ buttons delta = [1; 2; 3; 4; 5; 4; 5; 2; 2; 2]%nat.
Proof.
  apply (proj2 (draw_pie_draws_first_eight demo_api 0%nat
                  (demo_state (Some full_pie) (Some cut_item)))
           (UserMenu [cut_item; rule_item; more_item; view_item;
                      snap_item; rule_item; rule_item; rule_item])).
  - reflexivity.
  - reflexivity.
Defined.

Section Redraw.
Context `{HostAPI}.




End Redraw.



(** X17: after a [draw_user_menus] that completes there is an active group:
    the one there was, or [um.menus[0]].  With no active group and an empty
    [um.menus] it raises IndexError before anything is drawn or written. *)
Theorem draw_user_menus_leaves_active_group (api : HostAPI) (layout_ : layout)
    (s : state) :
  ((draw_user_menus layout_ s).1 = Ok tt →
     ∃ g, active_group (user_menus_of (ctx (draw_user_menus layout_ s).2)) = Some g
          ∧ (active_group (user_menus_of (ctx s)) = Some g
             ∨ (active_group (user_menus_of (ctx s)) = None
                ∧ menus (user_menus_of (ctx s)) !! 0%nat = Some g)))
  ∧ (active_group (user_menus_of (ctx s)) = None →
     menus (user_menus_of (ctx s)) = [] →
     draw_user_menus layout_ s = (Raise IndexError, s)).
Proof.
  split; [|apply draw_user_menus_no_menus].
  intros Hok. destruct (draw_user_menus_user_menus layout_ s) as [_ ->].
  unfold with_default_group.
  destruct (active_group (user_menus_of (ctx s))) as [g|] eqn:Hg.
  - exists g. split; [done|]. by left.
  - destruct (menus (user_menus_of (ctx s))) as [|g rest] eqn:Hmenus.
    + by rewrite draw_user_menus_no_menus in Hok.
    + exists g. split; [done|]. by right.
Qed.

Lemma draw_user_menus_leaves_active_group_witness :
  let s := demo_state None None in
  ∃ g, active_group (user_menus_of (ctx (@draw_user_menus demo_api 0%nat s).2)) = Some g
       ∧ (active_group (user_menus_of (ctx s)) = Some g
          ∨ (active_group (user_menus_of (ctx s)) = None
             ∧ menus (user_menus_of (ctx s)) !! 0%nat = Some g)).
Proof.
  apply (proj1 (draw_user_menus_leaves_active_group demo_api 0%nat (demo_state None None))).
  reflexivity.
Defined.

(** ** Edge cases of the drawing functions *)

(** X13: when [has_item()] is false, [draw_item_box] completes without
    looking at the current menu and without touching the host state: it
    shows the label 'none', then the add (with index -1), remove, up and
    down buttons and a separator. *)
Theorem draw_item_box_without_items (api : HostAPI) (row : layout) (s : state) :
  has_item (user_menus_of (ctx s)) = false →
  (draw_item_box row s).1 = Ok tt
  ∧ ctx (draw_item_box row s).2 = ctx s
  ∧ ∃ delta,
      drawn (draw_item_box row s).2 = drawn s ++ delta
      ∧ widgets delta
        = [w_label [("text", AStr "none")];
           w_operator "preferences.menuitem_add"; w_operator "preferences.menuitem_remove";
           w_operator "preferences.menuitem_up"; w_operator "preferences.menuitem_down";
           w_separator]
      ∧ omap operator_of delta
        = [("preferences.menuitem_add", [("index", AInt (-1))]);
           ("preferences.menuitem_remove", []);
           ("preferences.menuitem_up", []);
           ("preferences.menuitem_down", [])].
Proof.
  intros Hhas.
  unfold draw_item_box, bind, gets, emit, new_layout, ret. simpl. rewrite Hhas. simpl.
  repeat split. eexists. split; [rewrite <- ?app_assoc; reflexivity|]. by split.
Qed.

Lemma draw_item_box_without_items_witness :
  let s := demo_state None None in
  (@draw_item_box demo_api 0%nat s).1 = Ok tt
  ∧ ctx (@draw_item_box demo_api 0%nat s).2 = ctx s.
Proof.
  pose proof (draw_item_box_without_items demo_api 0%nat (demo_state None None) eq_refl)
    as (Hok & Hctx & _).
  by split.
Defined.

(** X15: what [draw_button] does with an item by its type.  An item that is
    not a SUBMENU always completes, having drawn its own button and nothing
    else.  A SUBMENU item raises AttributeError when there is no active
    group, and when there is one but the item has no submenu object; in
    both cases the item's flag is already written and its button drawn. *)
Theorem draw_button_by_type (box : layout) (item : menu_item) (index : Z) (s : state) :
  (String.eqb (it_type item) "SUBMENU" = false →
     (draw_button box item index s).1 = Ok tt
     ∧ ∃ col row kw,
         drawn (draw_button box item index s).2
         = drawn s ++ [sub_layout "column" box col [("align", ABool true)];
                       sub_layout "row" col row [("align", ABool true)];
                       prop row (ref_item (it_id item)) "is_selected" kw])
  ∧ (String.eqb (it_type item) "SUBMENU" = true →
     active_group (user_menus_of (ctx s)) = None ∨ it_submenu item = None →
     (draw_button box item index s).1 = Raise AttributeError
     ∧ is_selected (ctx (draw_button box item index s).2) !! it_id item
       = Some (is_active (it_id item) (user_menus_of (ctx s)))
     ∧ ∃ delta,
         drawn (draw_button box item index s).2 = drawn s ++ delta
         ∧ buttons delta = [it_id item]).
Proof.
  destruct item as [id name icon type sub]. simpl. split.
  - intros Htype. do 5 (unfold bind at 1; simpl). rewrite Htype. simpl.
    split; [done|]. eexists _, _, _. by rewrite <- !app_assoc.
  - intros Htype Hmissing. do 5 (unfold bind at 1; simpl). rewrite Htype.
    destruct (active_group (user_menus_of (ctx s))) as [g|] eqn:Hg.
    + destruct Hmissing as [Hbad | ->]; [done|].
      unfold bind, attr_of, emit, new_layout, ret, raise. simpl. rewrite Hg. simpl.
      destruct (String.eqb (g_type g) "PIE" && Z.leb 0 index); simpl.
      all: repeat split; [apply lookup_insert_eq|].
      all: eexists; split; [rewrite <- ?app_assoc; reflexivity|reflexivity].
    + unfold bind, attr_of, raise. simpl. rewrite Hg. simpl.
      repeat split; [apply lookup_insert_eq|].
      eexists; split; [rewrite <- ?app_assoc; reflexivity|reflexivity].
Qed.

Lemma draw_button_by_type_witness :
  let item := MenuItem 9 "Empty" "NONE" "SUBMENU" None in
  let s := demo_state (Some quick_favorites) None in
  (draw_button 0%nat item (-1) s).1 = Raise AttributeError
  ∧ is_selected (ctx (draw_button 0%nat item (-1) s).2) !! 9%nat = Some false.
Proof.
  pose proof (proj2 (draw_button_by_type 0%nat (MenuItem 9 "Empty" "NONE" "SUBMENU" None)
                       (-1) (demo_state (Some quick_favorites) None))
                eq_refl (or_intror eq_refl)) as (Hraise & Hflag & _).
  by split.
Defined.


Section Preference.
Context `{HostAPI} (um : user_menus).

Lemma draw_user_menu_preference_draws_group layout_ g qf rest :
  active_group um = Some g → menus um = qf :: rest →
  draws group_prop_of um (draw_user_menu_preference layout_)
    (if Nat.eqb (g_id g) (g_id qf) then []
     else [(g_id g, "name", []);
           (g_id g, "type",
            [("text", AStr (if String.eqb (g_type g) "PIE" then "Pie" else "List"));
             ("expand", ABool true)])]).
Proof.
  intros Hg Hmenus. unfold draw_user_menu_preference, draw_user_menu_preference_expanded.
  apply draws_user_menus. cbv zeta.
  apply draws_skip;
    [apply get_keymap_log_all | apply same_host_weaken, get_keymap_reads_only | intros kmi].
  do 3 draws_skip_step.
  apply draws_index_of. rewrite Hmenus. intros qf' [= <-]. rewrite Hg. simpl.
  eapply draws_conv; [|apply app_nil_r].
  apply draws_bind.
  - destruct (Nat.eqb (g_id g) (g_id qf)); simpl; [apply draws_ret_tt|].
    apply (draws_bind _ _ _ _ [_] [_]); [by apply draws_emit|]. intros _.
    by apply draws_emit.
  - intros _. apply draws_quiet; [log_steps ltac:(reflexivity) | frame].
Qed.

Lemma draw_user_menu_preference_no_menus layout_ g :
  active_group um = Some g → menus um = [] →
  raises um (draw_user_menu_preference layout_) IndexError.
Proof.
  intros Hg Hmenus. unfold draw_user_menu_preference.
  apply raises_bind_r, total_user_menus. cbv zeta.
  apply raises_bind_r.
  eapply total_weaken; [by apply (get_keymap_total um g)|]. intros kmi _.
  do 3 (apply raises_bind_r; total_step).
  apply raises_bind_l, raises_index_of. by rewrite Hmenus.
Qed.

End Preference.

(** X7: [draw_user_menu_preference] exposes the name and the type of the
    active group unless that group is [um.menus[0]]: for the first group no
    widget bound to a group is drawn, for any other group the name widget
    and the type widget, labelled 'Pie' for a pie and 'List' otherwise.
    Without an active group it raises AttributeError before drawing
    anything; with an empty [um.menus] it raises IndexError. *)
Theorem preference_shows_group_unless_first (api : HostAPI) (layout_ : layout)
    (s : state) :
  (active_group (user_menus_of (ctx s)) = None →
     draw_user_menu_preference layout_ s = (Raise AttributeError, s))
  ∧ (∀ g, active_group (user_menus_of (ctx s)) = Some g →
       menus (user_menus_of (ctx s)) = [] →
       (draw_user_menu_preference layout_ s).1 = Raise IndexError)
  ∧ (∀ g qf rest,
       active_group (user_menus_of (ctx s)) = Some g →
       menus (user_menus_of (ctx s)) = qf :: rest →
       (draw_user_menu_preference layout_ s).1 = Ok tt
       ∧ ∃ delta,
           drawn (draw_user_menu_preference layout_ s).2 = drawn s ++ delta
           ∧ omap group_prop_of delta
             = if Nat.eqb (g_id g) (g_id qf) then []
               else [(g_id g, "name", []);
                     (g_id g, "type",
                      [("text", AStr (if String.eqb (g_type g) "PIE" then "Pie" else "List"));
                       ("expand", ABool true)])]).
Proof.
  split; [|split].
  - intros Hg. unfold draw_user_menu_preference, bind at 1. simpl. unfold bind at 1.
    rewrite get_keymap_unresolved; [done|].
    unfold resolved_idname. simpl. by rewrite Hg.
  - intros g Hg Hmenus.
    by apply raises_run, (draw_user_menu_preference_no_menus _ _ g).
  - intros g qf rest Hg Hmenus.
    assert (Hok : (draw_user_menu_preference layout_ s).1 = Ok tt).
    { by apply total_run, (draw_user_menu_preference_total _ g qf rest). }
    split; [done|].
    by destruct (draw_user_menu_preference_draws_group _ layout_ g qf rest Hg Hmenus
                   s tt eq_refl Hok) as [_ Hdelta].
Qed.

Lemma preference_shows_group_unless_first_witness :
  let s := demo_state (Some full_pie) None in
  ∃ delta,
    drawn (@draw_user_menu_preference demo_api 0%nat s).2 = drawn s ++ delta
    ∧ omap group_prop_of delta
      = [(1%nat, "name", []);
         (1%nat, "type", [("text", AStr "Pie"); ("expand", ABool true)])].
Proof.
  apply (proj2 (proj2 (preference_shows_group_unless_first demo_api 0%nat
                         (demo_state (Some full_pie) None)))
           full_pie quick_favorites [full_pie; short_pie]); reflexivity.
Defined.

(** ** More on the dispatch of [main] *)

Section MainFacts.
Import Operators.
Variable new_OperatorTest : list pyval → OperatorTest.

(** Leading arguments shift the indices and nothing else. *)
Lemma dispatch_shift pre rest l k ot :
  dispatch (pre ++ rest) (enumerate_from (length pre + k) l) ot
  = dispatch rest (enumerate_from k l) ot.
Proof.
  revert k. induction l as [|cmd l IH]; intros k; simpl; [done|].
  replace (length pre + k + 1)%nat with (length pre + (k + 1))%nat by lia.
  rewrite lookup_app_r by lia.
  replace (length pre + (k + 1) - length pre)%nat with (k + 1)%nat by lia.
  replace (S (length pre + k)) with (length pre + S k)%nat by lia.
  by rewrite IH.
Qed.

(** X16: only the first flag and, for [--run-test], the argument after it
    decide what [main] does: arguments before the first flag can be dropped
    and arguments after the dispatched ones can be dropped or changed
    without changing the calls made, the attribute written or the exception
    raised. *)
Theorem main_ignores_other_arguments (pre : list string) :
  no_flag pre →
  (∀ rest, main new_OperatorTest (pre ++ rest) = main new_OperatorTest rest)
  ∧ (∀ post, main new_OperatorTest (pre ++ "--run-all-tests" :: post)
             = main new_OperatorTest ["--run-all-tests"])
  ∧ (∀ name post, main new_OperatorTest (pre ++ "--run-test" :: name :: post)
                  = main new_OperatorTest ["--run-test"; name]).
Proof.
  intros Hpre. split; [|split].
  - intros rest. unfold main, enumerate.
    rewrite dispatch_skip by done.
    replace (0 + length pre)%nat with (length pre + 0)%nat by lia.
    apply dispatch_shift.
  - intros post. by rewrite main_at_first_flag.
  - intros name post. by rewrite main_at_first_flag.
Qed.

End MainFacts.

Lemma main_ignores_other_arguments_witness :
  Operators.main Operators.bare_OperatorTest
    ["blender"; "--background"; "--run-test"; "CubeBisect"; "--verbose"]
  = Operators.main Operators.bare_OperatorTest ["--run-test"; "CubeBisect"].
Proof.
  apply (proj2 (proj2 (main_ignores_other_arguments Operators.bare_OperatorTest
                         ["blender"; "--background"] ltac:(repeat constructor)))
           "CubeBisect" ["--verbose"]).
Defined.

(** ** The panel as a whole *)

Section Panel.
Context `{HostAPI}.

Lemma get_keymap_lookup_state idname s : (get_keymap idname false s).2 = s.
Proof.
  destruct (resolved_idname idname (user_menus_of (ctx s))) as [target|] eqn:Hres.
  - rewrite (get_keymap_resolved _ _ _ target) by done. by destruct (find _ _).
  - by rewrite get_keymap_unresolved.
Qed.

Lemma draw_user_menus_completed layout_ s :
  (draw_user_menus layout_ s).1 = Ok tt →
  ∃ s0, draw_user_menus layout_ s = draw_user_menus_body layout_ s0
        ∧ user_menus_of (ctx s0) = with_default_group (user_menus_of (ctx s))
        ∧ is_selected (ctx s0) = is_selected (ctx s)
        ∧ drawn s0 = drawn s.
Proof.
  intros Hok. unfold with_default_group.
  destruct (active_group (user_menus_of (ctx s))) as [g|] eqn:Hg.
  - exists s. split; [by apply (draw_user_menus_set _ _ g)|done].
  - destruct (menus (user_menus_of (ctx s))) as [|g rest] eqn:Hmenus.
    + by rewrite draw_user_menus_no_menus in Hok.
    + eexists. split; [by apply (draw_user_menus_unset _ _ g rest)|].
      simpl. by rewrite Hmenus.
Qed.

End Panel.

(** X18: every widget of [draw_user_menu_preference] that is bound to a
    keymap item is bound to the item [get_keymap] returns for the active
    group; when [get_keymap] returns [None] or raises, no such widget is
    drawn. *)
Theorem preference_binds_the_found_item (api : HostAPI) (layout_ : layout) (s : state) :
  log_all (λ c, ∀ id property, kmi_prop_of c = Some (id, property) →
                ∃ kmi, (get_keymap None false s).1 = Ok (Some kmi) ∧ id = kmi_id kmi)
    s (draw_user_menu_preference layout_ s).2.
Proof.
  unfold draw_user_menu_preference, bind at 1. simpl. unfold bind at 1.
  pose proof (get_keymap_lookup_state None s) as Hstate.
  destruct (get_keymap None false s) as [[kmi|e] s'] eqn:Hrun; simpl in Hstate; subst s'.
  - simpl. remember (user_menus_of (ctx s)) as um eqn:Hum. clear Hum Hrun. revert s.
    match goal with
    | |- ∀ s1, log_all ?P s1 (?k s1).2 => change (always (log_all P) k)
    end.
    unfold draw_user_menu_preference_expanded.
    log_steps ltac:(first
      [ by intros ? ? [=]
      | intros ? ? [= <- _]; eexists; split; reflexivity ]).
  - simpl. reflexivity.
Qed.

(** X19: after a [draw_user_menus] that completes, the flag of every item
    shown in the panel (reached from the current menu, for a pie from its
    first eight entries) holds [item == um.active_item], and the flag of
    every other item is what it was before. *)
Theorem panel_selection_flags (api : HostAPI) (layout_ : layout) (s : state) :
  (draw_user_menus layout_ s).1 = Ok tt →
  ∀ id,
    is_selected (ctx (draw_user_menus layout_ s).2) !! id
    = if bool_decide
           (id ∈ panel_buttons api (with_default_group (user_menus_of (ctx s))))
      then Some (is_active id (user_menus_of (ctx s)))
      else is_selected (ctx s) !! id.
Proof.
  intros Hok id.
  destruct (draw_user_menus_completed layout_ s Hok) as (s0 & Heq & Hum0 & Hsel0 & _).
  rewrite Heq in Hok |- *.
  destruct (draw_user_menus_body_draws _ layout_ s0 tt eq_refl Hok)
    as (_ & d & Hd & Hb).
  destruct (draw_user_menus_body_exact layout_ s0) as (d' & Hd' & _ & _ & Hf).
  rewrite Hd in Hd'. apply app_inv_head in Hd' as <-.
  rewrite Hf. unfold buttons. rewrite Hb, Hum0, Hsel0.
  case_bool_decide; [|done].
  f_equal. unfold is_active, with_default_group.
  destruct (active_group (user_menus_of (ctx s))); [done|].
  by destruct (menus (user_menus_of (ctx s))).
Qed.

Lemma panel_selection_flags_witness :
  let s := demo_state None (Some rule_item) in
  is_selected (ctx s) !! 1%nat = Some true
  ∧ is_selected (ctx (@draw_user_menus demo_api 0%nat s).2) !! 1%nat = Some false
  ∧ is_selected (ctx (@draw_user_menus demo_api 0%nat s).2) !! 2%nat = Some true.
Proof.
  pose proof (panel_selection_flags demo_api 0%nat (demo_state None (Some rule_item)) eq_refl)
    as Hflags.
  split; [reflexivity|]. split.
  - exact (Hflags 1%nat).
  - exact (Hflags 2%nat).
Defined.
